(** * Clover media-catalog scraper: a shallow embedding of [clover.py]

    The development follows the layout of the script:
    - text helpers standing for the Python string methods the script calls;
    - [Slugify]: the pipeline of python-slugify behind [sanitize_filename];
    - [Strptime]: the date parser behind [get_date_slug];
    - [get_subpages]: the catalog discoverer;
    - the crawler [scrape_media_items] and the driver [main], written in a
      small state-and-exception monad over a [world] made of the file
      system and the trace of outward effects.

    Text is modelled as Rocq [string]s, i.e. byte strings; every statement
    below is about ASCII text. *)

From Stdlib Require Import Ascii String.
From stdpp Require Import gmap strings list sorting.

(** ** Python string methods *)

Module Py.

Definition code (c : ascii) : nat := nat_of_ascii c.

Definition between (lo hi : nat) (c : ascii) : bool :=
  (lo <=? code c) && (code c <=? hi).

(** [str.isspace] on ASCII: TAB..CR, FS..US and the blank. *)
Definition isspace (c : ascii) : bool :=
  between 9 13 c || between 28 32 c.

Definition isdigit (c : ascii) : bool := between 48 57 c.
Definition isupper (c : ascii) : bool := between 65 90 c.
Definition islower (c : ascii) : bool := between 97 122 c.

Definition is_char (d c : ascii) : bool := bool_decide (c = d).

Definition lower_char (c : ascii) : ascii :=
  if isupper c then ascii_of_nat (code c + 32) else c.

(** [str.lower] *)
Fixpoint lower (s : string) : string :=
  match s with
  | EmptyString => EmptyString
  | String c s' => String (lower_char c) (lower s')
  end.

(** [str.lstrip], [str.rstrip] and [str.strip] for a class of characters *)
Fixpoint lstrip (p : ascii → bool) (s : string) : string :=
  match s with
  | EmptyString => EmptyString
  | String c s' => if p c then lstrip p s' else s
  end.

Fixpoint rstrip (p : ascii → bool) (s : string) : string :=
  match s with
  | EmptyString => EmptyString
  | String c s' =>
      match rstrip p s' with
      | EmptyString => if p c then EmptyString else String c EmptyString
      | r => String c r
      end
  end.

Definition strip (p : ascii → bool) (s : string) : string :=
  rstrip p (lstrip p s).

(** [s.split(sep)] for a one-character separator: never empty. *)
Fixpoint split (sep : ascii) (s : string) : list string :=
  match s with
  | EmptyString => [EmptyString]
  | String c s' =>
      if is_char sep c then EmptyString :: split sep s'
      else match split sep s' with
           | w :: ws => String c w :: ws
           | [] => [String c EmptyString]
           end
  end.

(** [l[-1]] on a list known to be non-empty *)
Definition last_item (l : list string) : string := List.last l EmptyString.

(** [s.startswith(p)] and [s.endswith(c)] *)
Fixpoint startswith (p s : string) : bool :=
  match p, s with
  | EmptyString, _ => true
  | String a p', String b s' => bool_decide (a = b) && startswith p' s'
  | String _ _, EmptyString => false
  end.

Fixpoint endswith_char (d : ascii) (s : string) : bool :=
  match s with
  | EmptyString => false
  | String c EmptyString => is_char d c
  | String _ s' => endswith_char d s'
  end.

(** [needle in hay] *)
Fixpoint contains (needle hay : string) : bool :=
  startswith needle hay ||
  match hay with
  | EmptyString => false
  | String _ hay' => contains needle hay'
  end.

(** [s.rfind(c)], as an option instead of [-1] *)
Fixpoint rfind (d : ascii) (s : string) : option nat :=
  match s with
  | EmptyString => None
  | String c s' =>
      match rfind d s' with
      | Some i => Some (S i)
      | None => if is_char d c then Some 0 else None
      end
  end.

(** the slice [s[n:]] *)
Fixpoint drop (n : nat) (s : string) : string :=
  match n, s with
  | S n', String _ s' => drop n' s'
  | _, _ => s
  end.

(** ["-" * n] *)
Fixpoint repeat_char (c : ascii) (n : nat) : string :=
  match n with
  | 0 => EmptyString
  | S n' => String c (repeat_char c n')
  end.

Definition digit_char (n : nat) : ascii := ascii_of_nat (48 + n).

(** [str(n)] for a natural number, by repeated division *)
Fixpoint str_nat_go (fuel n : nat) (acc : string) : string :=
  match fuel with
  | 0 => acc
  | S fuel' =>
      let acc' := String (digit_char (n mod 10)) acc in
      if n / 10 =? 0 then acc' else str_nat_go fuel' (n / 10) acc'
  end.

Definition str_nat (n : nat) : string := str_nat_go (S n) n EmptyString.

(** [os.path.join(a, b)] of posixpath *)
Definition path_join (a b : string) : string :=
  if startswith "/" b then b
  else if bool_decide (a = EmptyString) || endswith_char "/"%char a then a +:+ b
  else a +:+ "/" +:+ b.

(** [os.path.splitext(p)[-1]] of posixpath: the extension starts at the
    last dot of the last path component, unless that component has only
    leading dots before it. *)
Fixpoint all_dots_upto (n : nat) (s : string) : bool :=
  match n, s with
  | 0, _ => true
  | S n', String c s' => is_char "."%char c && all_dots_upto n' s'
  | S _, EmptyString => true
  end.

Definition splitext_ext (p : string) : string :=
  let base_start := match rfind "/"%char p with Some i => S i | None => 0 end in
  match rfind "."%char p with
  | Some dot =>
      if (base_start <=? dot) && negb (all_dots_upto (dot - base_start) (drop base_start p))
      then drop dot p
      else EmptyString
  | None => EmptyString
  end.

End Py.

(** ** python-slugify, as called with [lowercase=True, separator="-"]

    The stages of [slugify] in the order the library applies them.  NFKD
    normalisation, [unidecode] and the decoding of character references
    ([&amp;], [&#38;], [&#x26;]) leave ASCII text without an ampersand
    unchanged; [decode] stands for them on such text. *)

Module Slugify.

Definition is_quote (c : ascii) : bool := Py.is_char "'"%char c.
Definition is_dash (c : ascii) : bool := Py.is_char "-"%char c.

(** [[^-a-zA-Z0-9]] *)
Definition disallowed (c : ascii) : bool :=
  negb (is_dash c || Py.islower c || Py.isupper c || Py.isdigit c).

(** [re.sub(cls+, rep, s)]: every maximal run of [cls] becomes [rep];
    [in_run] tells that the previous character was in the class. *)
Fixpoint sub_runs (cls : ascii → bool) (rep : string) (in_run : bool)
    (s : string) : string :=
  match s with
  | EmptyString => EmptyString
  | String c s' =>
      if cls c then
        if in_run then sub_runs cls rep true s'
        else rep +:+ sub_runs cls rep true s'
      else String c (sub_runs cls rep false s')
  end.

Definition decode (s : string) : string := s.

(** [NUMBERS_PATTERN = (?<=\d),(?=\d)], replaced by nothing: a comma
    between two digits goes. *)
Fixpoint drop_digit_commas (prev_digit : bool) (s : string) : string :=
  match s with
  | EmptyString => EmptyString
  | String c s' =>
      let next_digit :=
        match s' with String d _ => Py.isdigit d | EmptyString => false end in
      if Py.is_char ","%char c && prev_digit && next_digit
      then drop_digit_commas false s'
      else String c (drop_digit_commas (Py.isdigit c) s')
  end.

Definition slugify (text : string) : string :=
  (* QUOTE_PATTERN.sub("-", text) *)
  let text := sub_runs is_quote "-" false text in
  let text := decode text in
  let text := Py.lower text in
  (* QUOTE_PATTERN.sub("", text) *)
  let text := sub_runs is_quote "" false text in
  let text := drop_digit_commas false text in
  (* re.sub(DISALLOWED_CHARS_PATTERN, "-", text) *)
  let text := sub_runs disallowed "-" false text in
  (* DUPLICATE_DASH_PATTERN.sub("-", text).strip("-"): a run of two or
     more dashes becomes one dash, a single dash stays *)
  let text := Py.strip is_dash (sub_runs is_dash "-" false text) in
  (* separator == DEFAULT_SEPARATOR: no final replace *)
  text.

End Slugify.

(** [text or "untitled"] *)
Definition or_default (text default : string) : string :=
  if bool_decide (text = EmptyString) then default else text.

Definition sanitize_filename (text : string) : string :=
  Slugify.slugify (or_default text "untitled").

(** ** [datetime.strptime(_, "%B %d, %Y")] and [strftime("%Y-%m-%d")]

    [_strptime] turns the format into the regular expression
    [(?P<B>january|...|december)\s+(?P<d>3[0-1]|[1-2]\d|0[1-9]|[1-9]| [1-9]),\s+(?P<Y>\d\d\d\d)],
    matched ignoring case at the start of the text, refuses text left
    over after the match, and builds the date, which refuses a day the
    month does not have and the year 0. *)

Module Strptime.

Inductive outcome (A : Type) : Type :=
| Parsed (a : A)
| ValueError (msg : string).
Arguments Parsed {A} a.
Arguments ValueError {A} msg.

Record date := Date { year : nat; month : nat; day : nat }.

Definition month_names : list string :=
  ["january"; "february"; "march"; "april"; "may"; "june"; "july";
   "august"; "september"; "october"; "november"; "december"].

(** [name] read off the front of [s] ignoring case; the rest of [s]. *)
Fixpoint strip_prefix_ci (name s : string) : option string :=
  match name, s with
  | EmptyString, _ => Some s
  | String a name', String b s' =>
      if bool_decide (Py.lower_char b = a) then strip_prefix_ci name' s' else None
  | String _ _, EmptyString => None
  end.

(** group [B]: the month number (from 1) and the rest *)
Fixpoint match_month (names : list string) (num : nat) (s : string)
    : option (nat * string) :=
  match names with
  | [] => None
  | name :: names' =>
      match strip_prefix_ci name s with
      | Some rest => Some (num, rest)
      | None => match_month names' (S num) s
      end
  end.

(** [\s+] *)
Definition match_spaces (s : string) : option string :=
  match s with
  | String c s' => if Py.isspace c then Some (Py.lstrip Py.isspace s') else None
  | EmptyString => None
  end.

Definition digit_val (c : ascii) : nat := Py.code c - 48.

(** group [d] followed by the comma.  The white space before it was
    taken by [\s+], which makes the alternative [ [1-9]] the same as
    [[1-9]]. *)
Definition match_day_comma (s : string) : option (nat * string) :=
  match s with
  | String a (String b (String c rest)) =>
      if Py.is_char ","%char c && Py.isdigit a && Py.isdigit b then
        if Py.is_char "3"%char a && Py.between 48 49 b
        then Some (30 + digit_val b, rest)
        else if Py.between 49 50 a
        then Some (10 * digit_val a + digit_val b, rest)
        else if Py.is_char "0"%char a && Py.between 49 57 b
        then Some (digit_val b, rest)
        else None
      else if Py.is_char ","%char b && Py.between 49 57 a
      then Some (digit_val a, String c rest)
      else None
  | String a (String b EmptyString) =>
      if Py.is_char ","%char b && Py.between 49 57 a
      then Some (digit_val a, EmptyString)
      else None
  | _ => None
  end.

(** group [Y] and the end of the text *)
Definition match_year_end (s : string) : option nat :=
  match s with
  | String a (String b (String c (String d EmptyString))) =>
      if Py.isdigit a && Py.isdigit b && Py.isdigit c && Py.isdigit d
      then Some (1000 * digit_val a + 100 * digit_val b + 10 * digit_val c + digit_val d)
      else None
  | _ => None
  end.

Definition is_leap (y : nat) : bool :=
  (y mod 4 =? 0) && (negb (y mod 100 =? 0) || (y mod 400 =? 0)).

Definition days_in_month (y m : nat) : nat :=
  match m with
  | 2 => if is_leap y then 29 else 28
  | 4 | 6 | 9 | 11 => 30
  | _ => 31
  end.

Definition strptime (s : string) : outcome date :=
  match match_month month_names 1 s with
  | None => ValueError "time data does not match format"
  | Some (m, s1) =>
  match match_spaces s1 with
  | None => ValueError "time data does not match format"
  | Some s2 =>
  match match_day_comma s2 with
  | None => ValueError "time data does not match format"
  | Some (d, s3) =>
  match match_spaces s3 with
  | None => ValueError "time data does not match format"
  | Some s4 =>
  match match_year_end s4 with
  | None => ValueError "time data does not match format"
  | Some y =>
      if (1 <=? y) && (d <=? days_in_month y m)
      then Parsed (Date y m d)
      else ValueError "date out of range"
  end end end end end.

Definition pad2 (n : nat) : string :=
  String (Py.digit_char (n / 10 mod 10)) (String (Py.digit_char (n mod 10)) EmptyString).


(** [strftime("%Y-%m-%d")]: the month and the day on two digits, the
    year as the C library writes it, without leading zeros. *)
Definition strftime (d : date) : string :=
  Py.str_nat (year d) +:+ "-" +:+ pad2 (month d) +:+ "-" +:+ pad2 (day d).

End Strptime.

Definition get_date_slug (text : string) : string :=
  (* try: ... except Exception: return "unknown-date" *)
  match Strptime.strptime (Py.strip Py.isspace text) with
  | Strptime.Parsed d => Strptime.strftime d
  | Strptime.ValueError _ => "unknown-date"
  end.

(** ** The catalog discoverer *)

Definition START_URL : string := "https://providencebiblefellowship.com/seminars".

Definition is_slash (c : ascii) : bool := Py.is_char "/"%char c.

Definition keep_link (link : string) : bool :=
  Py.contains "providencebiblefellowship.com/" link
  && negb (bool_decide (Py.strip is_slash link = Py.strip is_slash START_URL)).

(** [sorted(set([link for link in links if ...]))] *)
Definition subpages_of (links : list string) : list string :=
  merge_sort String.le (elements (list_to_set (filter (λ l, keep_link l = true) links) : gset string)).

(** ** The world the script acts on *)

Definition nl : string := String (ascii_of_nat 10) EmptyString.

(** Outward effects, in the order they happen. *)
Inductive effect : Type :=
| Print (text : string)              (* print(text) *)
| Goto (url : string)                (* page.goto(url) *)
| Activate (url : string) (idx : nat) (* the extractor starts on card idx of the page at url *)
| HttpGet (url : string).            (* session.get(url) *)

Record world : Type := World {
  fs : gmap string string;           (* files by path, with their content *)
  trace : list effect
}.

(** What the rendered page answers once a card is activated. *)
Record player : Type := Player {
  src : string;                      (* .media-player video source [src] *)
  title_el : option string;          (* inner text of the element, if present *)
  date_el : option string;
  speaker_el : option string;
  series_el : option string
}.

Inductive activation : Type :=
| Fails (err : string)               (* scroll, click, wait or query raised *)
| Reveals (p : player).

Record card : Type := Card {
  data_id : option string;           (* get_attribute("data-id") *)
  activate : activation
}.

Inductive page_load : Type :=
| TimedOut (err : string)            (* goto or wait_for_selector raised *)
| Loaded (cards : list card).        (* query_selector_all(".media-card") *)

Inductive http_result : Type :=
| ConnError (err : string)                  (* session.get raised *)
| Response (status : nat) (body : string)   (* status line, then the body *)
| ReadError (status : nat) (err : string).  (* status line, then resp.read() raised *)

(** ** A state-and-exception monad *)

Inductive result (A : Type) : Type :=
| Ok (a : A)
| Raise (err : string).
Arguments Ok {A} a.
Arguments Raise {A} err.

Definition M (A : Type) : Type := world → result A * world.

Global Instance M_ret : MRet M := λ A a w, (Ok a, w).

Global Instance M_bind : MBind M := λ A B k m w,
  match m w with
  | (Ok a, w') => k a w'
  | (Raise e, w') => (Raise e, w')
  end.

Definition raise {A} (err : string) : M A := λ w, (Raise err, w).

(** [try: body except Exception as e: handler(str(e))] *)
Definition try_except {A} (body : M A) (handler : string → M A) : M A :=
  λ w, match body w with
       | (Ok a, w') => (Ok a, w')
       | (Raise e, w') => handler e w'
       end.

Definition emit (e : effect) : M unit :=
  λ w, (Ok tt, World (fs w) (trace w ++ [e])).

Definition print (text : string) : M unit := emit (Print text).

(** [os.path.exists(path)] *)
Definition path_exists (path : string) : M bool :=
  λ w, (Ok (bool_decide (is_Some (fs w !! path))), w).

(** [open(path, "wb").write(data)] *)
Definition write_file (path data : string) : M unit :=
  λ w, (Ok tt, World (<[path := data]> (fs w)) (trace w)).

(** [open(path, "a").write(data)] *)
Definition append_file (path data : string) : M unit :=
  λ w, (Ok tt, World (<[path := default EmptyString (fs w !! path) +:+ data]> (fs w)) (trace w)).

Definition rule : string := Py.repeat_char "-"%char 40 +:+ nl.

(** ** The scraper, over the site and the asset server *)

Section Scraper.

(** The page the browser shows at a URL, and the asset server's answer. *)
Variable site : string → page_load.
Variable http : string → http_result.
(** [urllib.parse.urlparse(url).path] *)
Variable url_path : string → string.
(** The [href]s of the anchors of the entry page, or the failure of its load. *)
Variable entry : result (list string).

Definition get_subpages : M (list string) :=
  emit (Goto START_URL) ;;
  match entry with
  | Raise e => raise e
  | Ok links => mret (subpages_of links)
  end.

Definition download_mp3 (url path : string) : M unit :=
  emit (HttpGet url) ;;
  match http url with
  | ConnError e => raise e
  | Response status body =>
      if status =? 200 then
        write_file path body ;;
        print ("⬇️  Downloaded: " +:+ path)
      else
        print ("❌ Failed to download: " +:+ url)
  | ReadError status e =>
      if status =? 200 then
        (* open(path, "wb") has made the file before resp.read() raises *)
        write_file path EmptyString ;;
        raise e
      else
        print ("❌ Failed to download: " +:+ url)
  end.

(** [await btn.get_attribute("data-id") or f"idx-{idx}"] *)
Definition media_id (idx : nat) (c : card) : string :=
  or_default (default EmptyString (data_id c)) ("idx-" +:+ Py.str_nat idx).

Definition media_ids (cards : list card) : list string :=
  imap media_id cards.

Definition catalog_slug (base_url : string) : string :=
  Py.last_item (Py.split "/"%char (Py.strip is_slash (url_path base_url))).

Definition catalog_folder (base_url : string) : string :=
  Py.path_join "downloads" (catalog_slug base_url).

Definition item_filename (slug date_slug clean_series clean_speaker clean_title ext : string)
    : string :=
  slug +:+ "_" +:+ date_slug +:+ "_" +:+ clean_series +:+ "_" +:+ clean_speaker
    +:+ "_" +:+ clean_title +:+ ext.

(** The text fields of an item, with the defaults of absent elements. *)
Definition item_title (idx : nat) (p : player) : string :=
  default ("untitled-" +:+ Py.str_nat (idx + 1)) (title_el p).
Definition item_date (p : player) : string := default EmptyString (date_el p).
Definition item_speaker (p : player) : string := default "unknown-speaker" (speaker_el p).
Definition item_series (p : player) : string := default "unknown-series" (series_el p).

Definition player_filename (slug : string) (idx : nat) (p : player) : string :=
  item_filename slug (get_date_slug (item_date p))
    (sanitize_filename (item_series p)) (sanitize_filename (item_speaker p))
    (sanitize_filename (item_title idx p)) (Py.splitext_ext (src p)).

Definition metadata_block (filename : string) (idx : nat) (p : player) : string :=
  "Filename: " +:+ filename +:+ nl +:+
  "Title: " +:+ item_title idx p +:+ nl +:+
  "Date: " +:+ item_date p +:+ nl +:+
  "Speaker: " +:+ item_speaker p +:+ nl +:+
  "Series: " +:+ item_series p +:+ nl +:+
  "MP3 URL: " +:+ src p +:+ nl +:+
  rule.

Definition failed_block (url : string) (idx : nat) (err : string) : string :=
  "Item " +:+ Py.str_nat (idx + 1) +:+ " on " +:+ url +:+ nl +:+
  "Error: " +:+ err +:+ nl +:+
  rule.

(** The body of the [try] for one card. *)
Definition extract_body (slug folder url : string) (idx : nat) (c : card) : M unit :=
  emit (Activate url idx) ;;
  match activate c with
  | Fails e => raise e
  | Reveals p =>
      let filename := player_filename slug idx p in
      let filepath := Py.path_join folder filename in
      present ← path_exists filepath;
      (if (present : bool) then print ("✅ Already downloaded: " +:+ filename)
       else download_mp3 (src p) filepath) ;;
      append_file (Py.path_join folder "metadata.txt") (metadata_block filename idx p)
      (* asyncio.sleep(1) *)
  end.

Definition extract_item (slug folder url : string) (idx : nat) (c : card) : M unit :=
  try_except (extract_body slug folder url idx c)
    (λ e,
       print ("⚠️  Error processing item " +:+ Py.str_nat (idx + 1) +:+ ": " +:+ e) ;;
       append_file (Py.path_join folder "failed.txt") (failed_block url idx e)).

(** [for idx, button in enumerate(media_buttons)], from position [idx] on *)
Fixpoint extract_items (slug folder url : string) (idx : nat) (cards : list card) : M unit :=
  match cards with
  | [] => mret tt
  | c :: cards' =>
      extract_item slug folder url idx c ;;
      extract_items slug folder url (S idx) cards'
  end.

Definition page_url (base_url : string) (page_num : nat) : string :=
  if 1 <? page_num then base_url +:+ "?page=" +:+ Py.str_nat page_num else base_url.

Definition visiting_line (url : string) (n : nat) : string :=
  "📄 Visiting: " +:+ url +:+ nl +:+ "🔎 Found " +:+ Py.str_nat n +:+ " media cards".

Definition stop_line (page_num : nat) : string :=
  "🛑 Detected repeating page at page " +:+ Py.str_nat page_num +:+ ". Stopping pagination.".

(** [any(mid in seen_ids for mid in media_ids)] *)
Definition is_repeat (seen_ids : gset string) (ids : list string) : bool :=
  existsb (λ mid, bool_decide (mid ∈ seen_ids)) ids.

(** The [while True] loop.  [fuel] bounds the number of pages; [None]
    is a loop that has not ended within it. *)
Fixpoint crawl (fuel : nat) (slug folder base_url : string) (page_num : nat)
    (seen_ids : gset string) (w : world) : option (result unit * world) :=
  match fuel with
  | 0 => None
  | S fuel' =>
      let url := page_url base_url page_num in
      let w1 := (emit (Goto url) w).2 in
      match site url with
      | TimedOut e => Some (Raise e, w1)
      | Loaded media_buttons =>
          let w2 := (print (visiting_line url (length media_buttons)) w1).2 in
          let ids := media_ids media_buttons in
          if is_repeat seen_ids ids then
            Some (print (stop_line page_num) w2)
          else
            match extract_items slug folder url 0 media_buttons w2 with
            | (Raise e, w3) => Some (Raise e, w3)
            | (Ok _, w3) =>
                let w4 := (print "➡️  Navigating to next page" w3).2 in
                crawl fuel' slug folder base_url (S page_num)
                  (seen_ids ∪ list_to_set ids) w4
            end
      end
  end.

Definition scrape_media_items (fuel : nat) (base_url : string) (w : world)
    : option (result unit * world) :=
  (* os.makedirs(folder, exist_ok=True) creates no file *)
  crawl fuel (catalog_slug base_url) (catalog_folder base_url) base_url 1 ∅ w.

(** [for url in subpages: try: ... except Exception as e: print(...)] *)
Fixpoint main_loop (fuel : nat) (subpages : list string) (w : world) : option world :=
  match subpages with
  | [] => Some w
  | url :: subpages' =>
      match scrape_media_items fuel url w with
      | None => None
      | Some (Ok _, w') => main_loop fuel subpages' w'
      | Some (Raise e, w') =>
          main_loop fuel subpages'
            (print ("❌ Failed to process " +:+ url +:+ ": " +:+ e) w').2
      end
  end.

Definition main (fuel : nat) (w : world) : option (result unit * world) :=
  match get_subpages w with
  | (Raise e, w') => Some (Raise e, w')
  | (Ok subpages, w') =>
      let w1 := (print ("🧭 Found " +:+ Py.str_nat (length subpages)
                        +:+ " subpages to process") w').2 in
      match main_loop fuel subpages w1 with
      | None => None
      | Some w2 => Some (Ok tt, w2)
      end
  end.

(** *** Vocabulary of the statements about the crawler *)

(** The cards of page [n] of a catalog (none when the page does not load). *)
Definition page_cards (base_url : string) (n : nat) : list card :=
  match site (page_url base_url n) with
  | Loaded cards => cards
  | TimedOut _ => []
  end.

Definition page_ids (base_url : string) (n : nat) : list string :=
  media_ids (page_cards base_url n).

(** The identifiers of pages [1..n-1]. *)
Definition seen_before (base_url : string) (n : nat) : gset string :=
  list_to_set (flat_map (page_ids base_url) (seq 1 (n - 1))).

(** Page [n] shows an identifier of an earlier page. *)
Definition repeats_at (base_url : string) (n : nat) : Prop :=
  ∃ mid, mid ∈ page_ids base_url n ∧ mid ∈ seen_before base_url n.

(** Where the asset of an item and the metadata log of its catalog go. *)
Definition asset_path (base_url : string) (idx : nat) (p : player) : string :=
  Py.path_join (catalog_folder base_url)
    (player_filename (catalog_slug base_url) idx p).

Definition metadata_path (base_url : string) : string :=
  Py.path_join (catalog_folder base_url) "metadata.txt".

(** The cards of page [n], as the extractor is started on them. *)
Definition page_activations (base_url : string) (n : nat) : list (string * nat) :=
  imap (λ i _, (page_url base_url n, i)) (page_cards base_url n).

End Scraper.

(** The navigations and the extractor starts recorded in a trace. *)
Definition goto_of (e : effect) : option string :=
  match e with Goto url => Some url | _ => None end.

Definition activation_of (e : effect) : option (string * nat) :=
  match e with Activate url idx => Some (url, idx) | _ => None end.

Definition http_get_of (e : effect) : option string :=
  match e with HttpGet url => Some url | _ => None end.

Definition gotos (t : list effect) : list string := omap goto_of t.
Definition activations (t : list effect) : list (string * nat) := omap activation_of t.
Definition http_gets (t : list effect) : list string := omap http_get_of t.


(** ** Vocabulary of the statements *)

Fixpoint all_chars (p : ascii → bool) (s : string) : bool :=
  match s with
  | EmptyString => true
  | String c s' => p c && all_chars p s'
  end.

Fixpoint has_char (d : ascii) (s : string) : bool :=
  match s with
  | EmptyString => false
  | String c s' => Py.is_char d c || has_char d s'
  end.



(** The Gregorian calendar: leap years and the days of month [m] (from 1)
    of year [y]. *)
Definition gregorian_leap (y : nat) : bool :=
  bool_decide ((y mod 4 = 0 ∧ y mod 100 ≠ 0) ∨ y mod 400 = 0).

Definition calendar_days (y m : nat) : nat :=
  nth (m - 1)
    [31; if gregorian_leap y then 29 else 28; 31; 30; 31; 30; 31; 31; 30; 31; 30; 31] 0.



(** A record of the metadata log: six labelled lines and a rule of forty
    dashes. *)
Definition record_text (filename title date speaker series mp3_url : string) : string :=
  "Filename: " +:+ filename +:+ nl +:+
  "Title: " +:+ title +:+ nl +:+
  "Date: " +:+ date +:+ nl +:+
  "Speaker: " +:+ speaker +:+ nl +:+
  "Series: " +:+ series +:+ nl +:+
  "MP3 URL: " +:+ mp3_url +:+ nl +:+
  "----------------------------------------" +:+ nl.

(** The record of the item that the card at index [idx] reveals as [p],
    stored under [filename]: absent elements read as their defaults. *)
Definition item_record (filename : string) (idx : nat) (p : player) : string :=
  record_text filename
    (default ("untitled-" +:+ Py.str_nat (idx + 1)) (title_el p))
    (default "" (date_el p))
    (default "unknown-speaker" (speaker_el p))
    (default "unknown-series" (series_el p))
    (src p).

(** The dot. *)
Definition is_dot (c : ascii) : bool := Py.is_char "." c.

(** The host of a URL: the text between [://] and the next [/], [?] or [#]. *)
Fixpoint after_scheme (u : string) : string :=
  match u with
  | EmptyString => EmptyString
  | String _ u' => if Py.startswith "://" u then Py.drop 3 u else after_scheme u'
  end.

Fixpoint take_until (stop : ascii → bool) (s : string) : string :=
  match s with
  | EmptyString => EmptyString
  | String c s' => if stop c then EmptyString else String c (take_until stop s')
  end.

Definition url_host (u : string) : string :=
  take_until (λ c, Py.is_char "/" c || Py.is_char "?" c || Py.is_char "#" c)
    (after_scheme u).

Definition SITE_HOST : string := "providencebiblefellowship.com".

(** The discoverer in the spec's words: same host, and not the entry URL
    once trailing slashes are dropped. *)
Definition spec_keep_link (link : string) : bool :=
  bool_decide (url_host link = SITE_HOST)
  && negb (bool_decide (Py.rstrip is_slash link = Py.rstrip is_slash START_URL)).

Definition subpages_spec (links : list string) : list string :=
  merge_sort String.le
    (elements (list_to_set (filter (λ l, spec_keep_link l = true) links) : gset string)).

Definition share_link : string :=
  "https://www.facebook.com/sharer.php?u=https://providencebiblefellowship.com/give".

(** ** A small site for the worked examples *)

Fixpoint from_char (stop : ascii → bool) (s : string) : string :=
  match s with
  | EmptyString => EmptyString
  | String c s' => if stop c then s else from_char stop s'
  end.

Module Demo.

(** The path of an [http(s)://host/path?query#fragment] URL. *)
Definition url_path (u : string) : string :=
  take_until (λ c, Py.is_char "?" c || Py.is_char "#" c)
    (from_char is_slash (after_scheme u)).

Definition sermons : string := "https://providencebiblefellowship.com/sermons".
Definition events : string := "https://providencebiblefellowship.com/events".
Definition asset : string := "https://cdn.example.org/audio/2024/grace.mp3".
Definition timeout : string := "Timeout 10000ms exceeded.".

Definition talk (title : string) : player :=
  Player asset (Some title) (Some "March 3, 2024") (Some "John Doe") None.

Definition card_a : card := Card (Some "a") (Reveals (talk "Grace")).
Definition card_b : card := Card (Some "b") (Fails timeout).
Definition card_c : card := Card (Some "c") (Reveals (talk "Hope")).

(** Two pages of sermons, the second showing [b] again; no events page. *)
Definition site (url : string) : page_load :=
  if bool_decide (url = sermons) then Loaded [card_a; card_b]
  else if bool_decide (url = sermons +:+ "?page=2") then Loaded [card_b; card_c]
  else TimedOut timeout.

(** One page on which two cards carry the same identifier. *)
Definition twin_site (url : string) : page_load :=
  if bool_decide (url = sermons) then Loaded [card_a; card_a]
  else TimedOut timeout.

(** A first page showing [b]; a second page on which two cards carry the
    new identifier [a] and a third the identifier [b]. *)
Definition mixed_site (url : string) : page_load :=
  if bool_decide (url = sermons) then Loaded [card_b]
  else if bool_decide (url = sermons +:+ "?page=2") then Loaded [card_a; card_a; card_b]
  else TimedOut timeout.

Definition http_ok (url : string) : http_result := Response 200 "ID3".
Definition http_gone (url : string) : http_result := Response 404 "".

Definition w0 : world := World ∅ [].

End Demo.

(** ** Vocabulary of the further properties *)

(** The block of the failure log for the card at [position] (from 1) of
    the page at [page] that failed with [error]: two lines and a rule of
    forty dashes. *)
Definition failure_text (position : nat) (page error : string) : string :=
  "Item " +:+ Py.str_nat position +:+ " on " +:+ page +:+ nl +:+
  "Error: " +:+ error +:+ nl +:+
  "----------------------------------------" +:+ nl.

(** The characters of a slug: lowercase letters, digits and the dash. *)
Definition slug_char (c : ascii) : bool :=
  Slugify.is_dash c || Py.islower c || Py.isdigit c.

(** The first character of [s] is in the class [p]. *)
Definition head_is (p : ascii → bool) (s : string) : bool :=
  match s with
  | String c _ => p c
  | EmptyString => false
  end.

(** No two [d] in a row. *)
Fixpoint no_double (d : ascii) (s : string) : bool :=
  match s with
  | EmptyString => true
  | String a s' => negb (Py.is_char d a && head_is (Py.is_char d) s') && no_double d s'
  end.

(** A slug: slug characters only, no dash at either end, no two dashes in
    a row. *)
Definition slug_shape (s : string) : Prop :=
  all_chars slug_char s = true
  ∧ head_is Slugify.is_dash s = false
  ∧ Py.endswith_char "-" s = false
  ∧ no_double "-" s = true.

(** The number a string of decimal digits writes. *)
Fixpoint nat_of_digits (acc : nat) (s : string) : nat :=
  match s with
  | EmptyString => acc
  | String c s' => nat_of_digits (10 * acc + Strptime.digit_val c) s'
  end.

(** A site that never ends: every page loads and shows one card, whose
    identifier is the URL of the page. *)
Definition endless_site (url : string) : page_load :=
  Loaded [Card (Some url) (Fails "Timeout 10000ms exceeded.")].

(** Where the failure log of a catalog goes. *)
Definition failed_path (url_path : string → string) (base_url : string) : string :=
  Py.path_join (catalog_folder url_path base_url) "failed.txt".

(** The pages of the catalog at [u] up to its page [further + 1]: the URL
    of the catalog, then the URL with [?page=2], [?page=3], and so on. *)
Definition pages_of (u : string) (further : nat) : list string :=
  u :: map (λ k, u +:+ "?page=" +:+ Py.str_nat k) (seq 2 further).

(** The directory of a catalog, with its final slash. *)
Definition catalog_dir (url_path : string → string) (base_url : string) : string :=
  "downloads/" +:+
  (if bool_decide (catalog_slug url_path base_url = "") then ""
   else catalog_slug url_path base_url +:+ "/").

(** [path] names a file directly in the directory [dir]. *)
Definition in_dir (dir path : string) : bool :=
  Py.startswith dir path && negb (has_char "/" (Py.drop (String.length dir) path)).

(** From [w] to [w'] no file outside the directory [dir] has changed. *)
Definition touches_only (dir : string) (w w' : world) : Prop :=
  ∀ path, in_dir dir path = false → fs w' !! path = fs w !! path.

(** Every file of [w] is still there in [w'], its content extended at the
    end at most. *)
Definition fs_grows (w w' : world) : Prop :=
  ∀ path content, fs w !! path = Some content →
    ∃ more, fs w' !! path = Some (content +:+ more).

(** * Properties *)

(** ** Text lemmas *)

Lemma sapp_cons c s t : String c s +:+ t = String c (s +:+ t).
Proof. reflexivity. Qed.

Lemma sapp_nil_l s : "" +:+ s = s.
Proof. reflexivity. Qed.

Lemma sapp_nil_r s : s +:+ "" = s.
Proof. induction s as [|c s IH]; [done|]. by rewrite sapp_cons, IH. Qed.

Lemma sapp_assoc s t u : (s +:+ t) +:+ u = s +:+ t +:+ u.
Proof. induction s as [|c s IH]; [done|]. by rewrite !sapp_cons, IH. Qed.

Lemma has_char_app d s t : has_char d (s +:+ t) = has_char d s || has_char d t.
Proof.
  induction s as [|c s IH]; [done|].
  rewrite sapp_cons. simpl. rewrite IH. by rewrite orb_assoc.
Qed.




Lemma lstrip_app_class p pre s :
  all_chars p pre = true → Py.lstrip p (pre +:+ s) = Py.lstrip p s.
Proof.
  induction pre as [|c pre IH]; [done|].
  simpl. intros [Hc Hpre]%andb_prop. rewrite Hc. auto.
Qed.

Lemma rstrip_class p post :
  all_chars p post = true → Py.rstrip p post = "".
Proof.
  induction post as [|c post IH]; [done|].
  simpl. intros [Hc Hpost]%andb_prop. by rewrite IH, Hc.
Qed.

Lemma rstrip_app_class p s post :
  all_chars p post = true → Py.rstrip p (s +:+ post) = Py.rstrip p s.
Proof.
  intros Hpost. induction s as [|c s IH].
  - rewrite sapp_nil_l. by apply rstrip_class.
  - rewrite sapp_cons. simpl. by rewrite IH.
Qed.

(** ** Slug Sanitizer *)

Lemma sub_runs_outside (P cls : ascii → bool) rep b s :
  (∀ c, P c = true → cls c = false) →
  all_chars P s = true → Slugify.sub_runs cls rep b s = s.
Proof.
  intros Hout. revert b. induction s as [|c s IH]; intros b; [done|].
  simpl. intros [Hc Hs]%andb_prop. rewrite (Hout c Hc). by rewrite IH.
Qed.

Lemma sub_runs_inside cls rep s :
  all_chars cls s = true → Slugify.sub_runs cls rep true s = "".
Proof.
  induction s as [|c s IH]; [done|].
  simpl. intros [Hc Hs]%andb_prop. rewrite Hc. auto.
Qed.

Lemma lower_outside (P : ascii → bool) s :
  (∀ c, P c = true → Py.isupper c = false) →
  all_chars P s = true → Py.lower s = s.
Proof.
  intros Hout. induction s as [|c s IH]; [done|].
  simpl. intros [Hc Hs]%andb_prop. unfold Py.lower_char.
  rewrite (Hout c Hc). by rewrite IH.
Qed.

Lemma drop_digit_commas_outside (P : ascii → bool) b s :
  (∀ c, P c = true → Py.is_char "," c = false) →
  all_chars P s = true → Slugify.drop_digit_commas b s = s.
Proof.
  intros Hout. revert b. induction s as [|c s IH]; intros b; [done|].
  simpl. intros [Hc Hs]%andb_prop. rewrite (Hout c Hc). simpl. by rewrite IH.
Qed.

Lemma all_chars_impl (P Q : ascii → bool) s :
  (∀ c, P c = true → Q c = true) → all_chars P s = true → all_chars Q s = true.
Proof.
  intros HPQ. induction s as [|c s IH]; [done|].
  simpl. intros [Hc Hs]%andb_prop. by rewrite (HPQ c Hc), IH.
Qed.

(** White space is neither a quote, a capital nor a comma, and is not
    allowed in a slug. *)
Lemma isspace_class c :
  Py.isspace c = true →
  Slugify.is_quote c = false ∧ Py.isupper c = false
  ∧ Py.is_char "," c = false ∧ Slugify.disallowed c = true.
Proof.
  destruct c as [[] [] [] [] [] [] [] []]; intros H; try discriminate H; done.
Qed.

(** C2 (the code at the failing inputs): on every non-empty text made
    of white space only, such as three blanks, [sanitize_filename] returns
    the empty string and not [untitled]: the default replaces only the
    empty text, before the slug is computed. *)
Theorem sanitize_filename_blank_is_empty :
  (∀ text, text ≠ "" → all_chars Py.isspace text = true → sanitize_filename text = "")
  ∧ sanitize_filename "   " = ""
  ∧ sanitize_filename "?!" = ""
  ∧ sanitize_filename "" = "untitled".
Proof.
  split; [|by repeat split].
  intros text Hne Hws. unfold sanitize_filename, or_default.
  rewrite bool_decide_eq_false_2 by done. unfold Slugify.slugify, Slugify.decode.
  assert (∀ c, Py.isspace c = true → Slugify.is_quote c = false) as Hq
    by (intros c Hc; by destruct (isspace_class c Hc) as (? & ? & ? & ?)).
  assert (∀ c, Py.isspace c = true → Py.isupper c = false) as Hu
    by (intros c Hc; by destruct (isspace_class c Hc) as (? & ? & ? & ?)).
  assert (∀ c, Py.isspace c = true → Py.is_char "," c = false) as Hcomma
    by (intros c Hc; by destruct (isspace_class c Hc) as (? & ? & ? & ?)).
  rewrite (sub_runs_outside Py.isspace Slugify.is_quote "-" false text Hq Hws).
  rewrite (lower_outside Py.isspace text Hu Hws).
  rewrite (sub_runs_outside Py.isspace Slugify.is_quote "" false text Hq Hws).
  rewrite (drop_digit_commas_outside Py.isspace false text Hcomma Hws).
  destruct text as [|c text]; [done|]. simpl in Hws. apply andb_prop in Hws as [Hc Hws].
  simpl. rewrite (proj2 (proj2 (proj2 (isspace_class c Hc)))).
  rewrite sub_runs_inside; [done|].
  apply (all_chars_impl Py.isspace); [|done].
  intros c' Hc'. by destruct (isspace_class c' Hc') as (? & ? & ? & ?).
Qed.

Lemma sanitize_filename_blank_is_empty_witness :
  sanitize_filename (String (ascii_of_nat 9) " ") = "".
Proof.
  apply (proj1 sanitize_filename_blank_is_empty); [discriminate|reflexivity].
Defined.

(** ** Date Normalizer *)





Lemma is_char_eq d c : Py.is_char d c = true → c = d.
Proof. unfold Py.is_char. by intros ?%bool_decide_eq_true. Qed.




Lemma digit_char_isdigit n : n < 10 → Py.isdigit (Py.digit_char n) = true.
Proof.
  intros H. do 10 (destruct n as [|n]; [reflexivity|]). lia.
Qed.

Lemma str_nat_go_step f n acc :
  Py.str_nat_go (S f) n acc
  = if n / 10 =? 0 then String (Py.digit_char (n mod 10)) acc
    else Py.str_nat_go f (n / 10) (String (Py.digit_char (n mod 10)) acc).
Proof. reflexivity. Qed.



Lemma calendar_days_model y m :
  1 ≤ m ≤ 12 → Strptime.days_in_month y m = calendar_days y m.
Proof.
  intros Hm. unfold Strptime.days_in_month, calendar_days.
  assert (Strptime.is_leap y = true
          ↔ (y mod 4 = 0 ∧ y mod 100 ≠ 0) ∨ y mod 400 = 0) as Hiff.
  { unfold Strptime.is_leap.
    rewrite andb_true_iff, orb_true_iff, negb_true_iff, !Nat.eqb_eq, Nat.eqb_neq.
    split.
    { intros [H4 [H|H]]; [by left|by right]. }
    intros [[H4 H100]|H400]; [split; [done|by left]|]. split; [|by right].
    pose proof (Nat.div_mod_eq y 400). pose proof (Nat.div_mod_eq y 4).
    pose proof (Nat.mod_upper_bound y 4). lia. }
  assert (Strptime.is_leap y = gregorian_leap y) as Hleap.
  { unfold gregorian_leap. destruct (Strptime.is_leap y) eqn:E; symmetry.
    - apply bool_decide_eq_true_2. by apply Hiff.
    - apply bool_decide_eq_false_2. intros HP. apply Hiff in HP. congruence. }
  destruct m as [|m]; [lia|].
  do 12 (destruct m as [|m]; [simpl; by rewrite ?Hleap|]). lia.
Qed.


Lemma digit_val_char n : n < 10 → Strptime.digit_val (Py.digit_char n) = n.
Proof.
  intros H. do 10 (destruct n as [|n]; [reflexivity|]). lia.
Qed.














(** ** Catalog Discoverer *)

Example subpages_scenario :
  subpages_of ["https://providencebiblefellowship.com/seminars";
               "https://providencebiblefellowship.com/sermons";
               "https://providencebiblefellowship.com/sermons";
               "https://providencebiblefellowship.com/events"]
  = ["https://providencebiblefellowship.com/events";
     "https://providencebiblefellowship.com/sermons"].
Proof. vm_compute. reflexivity. Qed.

(** C5 (counterexample): a link to another host that merely carries the
    site's domain in its query string is returned by the discoverer. *)
Lemma subpages_of_keeps_foreign_host :
  subpages_of [share_link] = [share_link]
  ∧ url_host share_link = "www.facebook.com"
  ∧ subpages_spec [share_link] = []
  ∧ subpages_of [share_link] ≠ subpages_spec [share_link].
Proof. vm_compute. repeat split; discriminate. Qed.

Lemma subpages_of_elem links l :
  l ∈ subpages_of links ↔ l ∈ links ∧ keep_link l = true.
Proof.
  unfold subpages_of. rewrite merge_sort_Permutation.
  rewrite elem_of_elements, elem_of_list_to_set, list_elem_of_filter. tauto.
Qed.

Lemma all_chars_repeat p c n : p c = true → all_chars p (Py.repeat_char c n) = true.
Proof. intros Hc. induction n as [|n IH]; [done|]. simpl. by rewrite Hc. Qed.

Lemma keep_link_entry n : keep_link (START_URL +:+ Py.repeat_char "/" n) = false.
Proof.
  unfold keep_link. apply andb_false_intro2. apply negb_false_iff, bool_decide_eq_true.
  unfold Py.strip.
  change (Py.lstrip is_slash (START_URL +:+ Py.repeat_char "/" n))
    with (START_URL +:+ Py.repeat_char "/" n).
  by rewrite rstrip_app_class by by apply all_chars_repeat.
Qed.

(** C5 (amended): the discoverer returns exactly the links that contain
    the text [providencebiblefellowship.com/] and whose form without
    leading and trailing slashes differs from that of the entry URL, each
    once and in increasing order; the entry URL followed by any number of
    slashes is never returned. *)
Theorem subpages_of_sorted_filter (links : list string) :
  (∀ l, l ∈ subpages_of links ↔
        l ∈ links
        ∧ Py.contains "providencebiblefellowship.com/" l = true
        ∧ Py.strip is_slash l ≠ Py.strip is_slash START_URL)
  ∧ NoDup (subpages_of links)
  ∧ StronglySorted String.le (subpages_of links)
  ∧ (∀ n, START_URL +:+ Py.repeat_char "/" n ∉ subpages_of links).
Proof.
  split; [|split; [|split]].
  - intros l. rewrite subpages_of_elem. unfold keep_link.
    rewrite andb_true_iff, negb_true_iff, bool_decide_eq_false. tauto.
  - unfold subpages_of. rewrite merge_sort_Permutation. apply NoDup_elements.
  - apply StronglySorted_merge_sort; apply _.
  - intros n [_ H]%subpages_of_elem. by rewrite keep_link_entry in H.
Qed.

(** ** The crawler *)

Section Crawler.

Context (site : string → page_load) (http : string → http_result)
        (url_path : string → string).

Lemma gotos_app t1 t2 : gotos (t1 ++ t2) = gotos t1 ++ gotos t2.
Proof. apply omap_app. Qed.

Lemma activations_app t1 t2 : activations (t1 ++ t2) = activations t1 ++ activations t2.
Proof. apply omap_app. Qed.

(** What one run of the extractor on a card leaves in the trace: the
    start on the card, then neither a navigation nor another start. *)
Lemma extract_item_ok slug folder url idx c w :
  ∃ w' t, extract_item http slug folder url idx c w = (Ok tt, w')
          ∧ trace w' = trace w ++ Activate url idx :: t
          ∧ gotos t = [] ∧ activations t = [].
Proof.
  unfold extract_item, try_except, extract_body, download_mp3, path_exists.
  unfold mbind, M_bind, emit, print, emit, append_file, write_file, raise. simpl.
  destruct (activate c) as [e|p]; simpl.
  { eexists _, _. split; [done|]. simpl. rewrite <- app_assoc. done. }
  case_bool_decide; simpl.
  { eexists _, _. split; [done|]. simpl. rewrite <- app_assoc. done. }
  destruct (http (src p)) as [e|status body|status e]; simpl.
  { eexists _, _. split; [done|]. simpl. rewrite <- !app_assoc. done. }
  all: destruct (status =? 200); simpl.
  all: eexists _, _; (split; [done|]); simpl; rewrite <- !app_assoc; done.
Qed.

Lemma extract_items_ok slug folder url cards idx w :
  ∃ w', extract_items http slug folder url idx cards w = (Ok tt, w')
        ∧ gotos (trace w') = gotos (trace w)
        ∧ activations (trace w')
          = activations (trace w) ++ imap (λ i _, (url, idx + i)) cards.
Proof.
  revert idx w. induction cards as [|c cards IH]; intros idx w.
  - exists w. simpl. by rewrite app_nil_r.
  - destruct (extract_item_ok slug folder url idx c w) as (w1 & t & H1 & Ht & Hg & Ha).
    destruct (IH (S idx) w1) as (w2 & H2 & Hg2 & Ha2).
    exists w2. split; [|split].
    + simpl. unfold mbind, M_bind. by rewrite H1.
    + rewrite Hg2, Ht, gotos_app. simpl. by rewrite Hg, app_nil_r.
    + rewrite Ha2, Ht, activations_app. simpl. rewrite Ha.
      rewrite <- app_assoc. simpl. rewrite Nat.add_0_r. do 2 f_equal.
      apply imap_ext. intros i x _. simpl. f_equal. lia.
Qed.

Lemma is_repeat_true seen ids :
  is_repeat seen ids = true ↔ ∃ mid, mid ∈ ids ∧ mid ∈ seen.
Proof.
  unfold is_repeat. rewrite existsb_exists. split.
  - intros (mid & Hin & Hs). exists mid. split; [by apply list_elem_of_In|].
    by apply bool_decide_eq_true in Hs.
  - intros (mid & Hin & Hs). exists mid. split; [by apply list_elem_of_In|].
    by apply bool_decide_eq_true.
Qed.

Lemma seen_before_succ base p :
  1 ≤ p →
  seen_before site base (S p)
  = seen_before site base p ∪ list_to_set (page_ids site base p).
Proof.
  intros Hp. unfold seen_before.
  replace (S p - 1) with (S (p - 1)) by lia.
  rewrite seq_S, flat_map_app, list_to_set_app_L. simpl.
  rewrite app_nil_r. do 3 f_equal. lia.
Qed.

(** One turn of the loop on a page that loads and shows no repeat. *)
Lemma crawl_step_fresh fuel slug folder base p seen cards w :
  site (page_url base p) = Loaded cards →
  is_repeat seen (media_ids cards) = false →
  ∃ w', crawl site http (S fuel) slug folder base p seen w
        = crawl site http fuel slug folder base (S p)
            (seen ∪ list_to_set (media_ids cards)) w'
        ∧ gotos (trace w') = gotos (trace w) ++ [page_url base p]
        ∧ activations (trace w')
          = activations (trace w) ++ imap (λ i _, (page_url base p, i)) cards.
Proof.
  intros Hsite Hfresh. simpl. rewrite Hsite, Hfresh.
  match goal with
  | |- context [extract_items _ _ _ _ _ _ ?w2] =>
      destruct (extract_items_ok slug folder (page_url base p) cards 0 w2)
        as (w3 & H3 & Hg & Ha)
  end.
  rewrite H3. eexists. split; [done|]. simpl.
  rewrite gotos_app, activations_app, Hg, Ha. simpl.
  rewrite !gotos_app, !activations_app. simpl.
  by rewrite !app_nil_r.
Qed.

(** The loop runs through [d] pages that load and show no repeat. *)
Lemma crawl_through slug folder base d : ∀ p fuel w,
  1 ≤ p →
  (∀ q, p ≤ q < p + d → ∃ cards, site (page_url base q) = Loaded cards) →
  (∀ q, p ≤ q < p + d → ¬ repeats_at site base q) →
  ∃ w', crawl site http (d + fuel) slug folder base p (seen_before site base p) w
        = crawl site http fuel slug folder base (p + d)
            (seen_before site base (p + d)) w'
        ∧ gotos (trace w') = gotos (trace w) ++ map (page_url base) (seq p d)
        ∧ activations (trace w')
          = activations (trace w) ++ flat_map (page_activations site base) (seq p d).
Proof.
  induction d as [|d IH]; intros p fuel w Hp Hload Hfresh.
  - exists w. rewrite Nat.add_0_r. simpl. by rewrite !app_nil_r.
  - destruct (Hload p ltac:(lia)) as [cards Hcards].
    assert (is_repeat (seen_before site base p) (media_ids cards) = false) as Hno.
    { apply not_true_is_false. intros Hr%is_repeat_true. apply (Hfresh p); [lia|].
      unfold repeats_at, page_ids, page_cards. by rewrite Hcards. }
    destruct (crawl_step_fresh (d + fuel) slug folder base p _ cards w Hcards Hno)
      as (w1 & H1 & Hg1 & Ha1).
    destruct (IH (S p) fuel w1 ltac:(lia)) as (w2 & H2 & Hg2 & Ha2).
    { intros q Hq. apply Hload. lia. }
    { intros q Hq. apply Hfresh. lia. }
    exists w2. split; [|split].
    + change (S d + fuel) with (S (d + fuel)). rewrite H1.
      replace (seen_before site base p ∪ list_to_set (media_ids cards))
        with (seen_before site base (S p)).
      2:{ rewrite seen_before_succ by done. unfold page_ids, page_cards.
          by rewrite Hcards. }
      rewrite H2. by replace (S p + d) with (p + S d) by lia.
    + rewrite Hg2, Hg1. simpl. by rewrite <- app_assoc.
    + rewrite Ha2, Ha1. simpl. rewrite <- app_assoc. do 2 f_equal.
      unfold page_activations, page_cards. by rewrite Hcards.
Qed.

(** C1: when page [N] is the first page showing an identifier of the
    pages before it, and pages [1..N] load, the crawl of the catalog ends
    normally within [N] turns; it has navigated to pages [1..N] in
    increasing order, has started the extractor on exactly the cards of
    pages [1..N-1], and after navigating to page [N] it only prints. *)
Theorem crawl_stops_at_first_repeat base N fuel w :
  1 ≤ N → N ≤ fuel →
  (∀ q, 1 ≤ q ≤ N → ∃ cards, site (page_url base q) = Loaded cards) →
  (∀ q, 1 ≤ q < N → ¬ repeats_at site base q) →
  repeats_at site base N →
  ∃ w' t,
    scrape_media_items site http url_path fuel base w = Some (Ok tt, w')
    ∧ trace w' = t ++ [Goto (page_url base N);
                       Print (visiting_line (page_url base N)
                                (length (page_cards site base N)));
                       Print (stop_line N)]
    ∧ gotos (trace w') = gotos (trace w) ++ map (page_url base) (seq 1 N)
    ∧ activations t
      = activations (trace w)
        ++ flat_map (page_activations site base) (seq 1 (N - 1)).
Proof.
  intros HN Hfuel Hload Hfresh Hrep.
  remember (fuel - N) as k eqn:Hk.
  assert (fuel = N - 1 + S k) as -> by lia. clear Hk Hfuel.
  destruct (crawl_through (catalog_slug url_path base) (catalog_folder url_path base)
              base (N - 1) 1 (S k) w ltac:(lia)) as (w1 & H1 & Hg1 & Ha1).
  { intros q Hq. apply Hload. lia. }
  { intros q Hq. apply Hfresh. lia. }
  destruct (Hload N ltac:(lia)) as [cards Hcards].
  assert (is_repeat (seen_before site base N) (media_ids cards) = true) as Hyes.
  { apply is_repeat_true. unfold repeats_at, page_ids, page_cards in Hrep.
    by rewrite Hcards in Hrep. }
  unfold scrape_media_items.
  change (∅ : gset string) with (seen_before site base 1).
  rewrite H1. replace (1 + (N - 1)) with N by lia.
  simpl. rewrite Hcards, Hyes. unfold print, emit. simpl.
  eexists _, (trace w1). split; [done|]. simpl.
  unfold page_cards. rewrite Hcards. split; [|split; [|done]].
  - by rewrite <- !app_assoc.
  - rewrite !gotos_app, Hg1. simpl. rewrite <- !app_assoc. f_equal.
    replace (seq 1 N) with (seq 1 (N - 1) ++ [N]); [by rewrite map_app|].
    replace N with (S (N - 1)) at 2 3 by lia. by rewrite seq_S.
Qed.

Lemma extract_items_trace slug folder url cards idx w :
  ∃ t, trace (extract_items http slug folder url idx cards w).2 = trace w ++ t.
Proof.
  revert idx w. induction cards as [|c cards IH]; intros idx w.
  - exists []. simpl. by rewrite app_nil_r.
  - destruct (extract_item_ok slug folder url idx c w) as (w1 & t & H1 & Ht & _).
    destruct (IH (S idx) w1) as [t2 H2]. simpl. unfold mbind, M_bind.
    rewrite H1. rewrite H2, Ht. eexists. by rewrite <- app_assoc.
Qed.

(** Whatever the loop does from page [p], it first navigates to that page. *)
Lemma crawl_trace fuel slug folder base : ∀ p seen w r w',
  crawl site http fuel slug folder base p seen w = Some (r, w') →
  ∃ t, trace w' = trace w ++ Goto (page_url base p) :: t.
Proof.
  induction fuel as [|fuel IH]; intros p seen w r w' H; [done|].
  simpl in H. destruct (site (page_url base p)) as [e|cards].
  { simplify_eq. by exists []. }
  destruct (is_repeat seen (media_ids cards)).
  { unfold print, emit in H. simplify_eq/=. eexists. by rewrite <- !app_assoc. }
  match type of H with
  | context [extract_items _ _ _ _ _ _ ?w2] =>
      destruct (extract_items_ok slug folder (page_url base p) cards 0 w2)
        as (w3 & H3 & _);
      destruct (extract_items_trace slug folder (page_url base p) cards 0 w2)
        as [t3 Ht3]
  end.
  rewrite H3 in H, Ht3. simpl in Ht3.
  apply IH in H as [t4 Ht4]. simpl in Ht4. rewrite Ht3 in Ht4.
  eexists. rewrite Ht4. by rewrite <- !app_assoc.
Qed.

(** C10 (amended): identifiers are compared with those of earlier pages
    only.  A page on which two cards, at positions [i] and [j], resolve to
    the same identifier, none of the identifiers of the page having been
    seen before, is no repeat: the extractor is started on every card of
    the page, the two included, and the loop goes on with the next
    page. *)
Theorem duplicate_ids_on_one_page_are_no_repeat
    fuel slug folder base p seen cards i j mid w :
  site (page_url base p) = Loaded cards →
  i ≠ j →
  media_ids cards !! i = Some mid → media_ids cards !! j = Some mid →
  (∀ x, x ∈ media_ids cards → x ∉ seen) →
  is_repeat seen (media_ids cards) = false
  ∧ ∃ w',
      crawl site http (S fuel) slug folder base p seen w
      = crawl site http fuel slug folder base (S p)
          (seen ∪ list_to_set (media_ids cards)) w'
      ∧ activations (trace w')
        = activations (trace w) ++ imap (λ k _, (page_url base p, k)) cards
      ∧ (page_url base p, i) ∈ activations (trace w')
      ∧ (page_url base p, j) ∈ activations (trace w')
      ∧ ∀ r w'',
          crawl site http fuel slug folder base (S p)
            (seen ∪ list_to_set (media_ids cards)) w' = Some (r, w'') →
          ∃ t, trace w'' = trace w' ++ Goto (page_url base (S p)) :: t.
Proof.
  intros Hsite Hij Hi Hj Hnew.
  assert (is_repeat seen (media_ids cards) = false) as Hno.
  { apply not_true_is_false. intros (x & Hx & Hs)%is_repeat_true.
    by apply (Hnew x). }
  split; [done|].
  destruct (crawl_step_fresh fuel slug folder base p seen cards w Hsite Hno)
    as (w' & Hstep & _ & Ha).
  exists w'. split; [done|]. split; [done|].
  assert (∀ k, is_Some (media_ids cards !! k) →
               (page_url base p, k) ∈ activations (trace w')) as Hin.
  { intros k Hk. rewrite Ha. apply elem_of_app. right.
    apply list_elem_of_lookup. exists k. rewrite list_lookup_imap.
    unfold media_ids in Hk. rewrite list_lookup_imap in Hk.
    destruct (cards !! k) as [c|]; [done|]. by destruct Hk. }
  split; [by apply Hin; eexists|]. split; [by apply Hin; eexists|].
  intros r w'' H. by apply crawl_trace in H.
Qed.

(** The loop over the cards, cut at a position. *)
Lemma extract_items_app slug folder url pre post idx w :
  extract_items http slug folder url idx (pre ++ post) w
  = extract_items http slug folder url (idx + length pre) post
      (extract_items http slug folder url idx pre w).2.
Proof.
  revert idx w. induction pre as [|c pre IH]; intros idx w.
  - simpl. by rewrite Nat.add_0_r.
  - destruct (extract_item_ok slug folder url idx c w) as (w1 & t & H1 & _).
    simpl. unfold mbind, M_bind. rewrite H1. rewrite IH.
    by replace (idx + S (length pre)) with (S idx + length pre) by lia.
Qed.

(** C8: an exception raised in the [try] of one card is caught.  When the
    body raises [e] on the card after [pre], the failure log of the
    catalog gets one block with the position of the card counted from 1,
    the URL of the page and [e]; the loop then runs on the cards after
    it, and the loop over the whole page ends without an exception. *)
Theorem item_failure_is_logged_and_skipped slug folder url pre c post e w w1 w2 :
  extract_items http slug folder url 0 pre w = (Ok tt, w1) →
  extract_body http slug folder url (length pre) c w1 = (Raise e, w2) →
  let failed_path := Py.path_join folder "failed.txt" in
  let block :=
    "Item " +:+ Py.str_nat (length pre + 1) +:+ " on " +:+ url +:+ nl +:+
    "Error: " +:+ e +:+ nl +:+ rule in
  let w3 :=
    World (<[failed_path := default "" (fs w2 !! failed_path) +:+ block]> (fs w2))
          (trace w2 ++ [Print ("⚠️  Error processing item "
                               +:+ Py.str_nat (length pre + 1) +:+ ": " +:+ e)]) in
  extract_item http slug folder url (length pre) c w1 = (Ok tt, w3)
  ∧ extract_items http slug folder url 0 (pre ++ c :: post) w
    = extract_items http slug folder url (S (length pre)) post w3
  ∧ ∃ w', extract_items http slug folder url 0 (pre ++ c :: post) w = (Ok tt, w').
Proof.
  intros Hpre Hbody failed_path block w3.
  assert (extract_item http slug folder url (length pre) c w1 = (Ok tt, w3)) as Hitem.
  { unfold extract_item, try_except. rewrite Hbody. reflexivity. }
  split; [done|]. split.
  - rewrite extract_items_app, Hpre. simpl. unfold mbind, M_bind. by rewrite Hitem.
  - destruct (extract_items_ok slug folder url (pre ++ c :: post) 0 w) as (w' & H & _).
    by exists w'.
Qed.

(** The driver's loop, cut at a position. *)
Lemma main_loop_app fuel pre post w :
  main_loop site http url_path fuel (pre ++ post) w
  = main_loop site http url_path fuel pre w
    ≫= main_loop site http url_path fuel post.
Proof.
  revert w. induction pre as [|u pre IH]; intros w; [done|].
  simpl. destruct (scrape_media_items _ _ _ _ _ _) as [[[[]|e] w']|]; by rewrite ?IH.
Qed.

(** Whether the loop over the pages ends within the fuel does not
    depend on the world it starts from. *)
Lemma crawl_ends_anywhere fuel slug folder base : ∀ p seen w w',
  is_Some (crawl site http fuel slug folder base p seen w) →
  is_Some (crawl site http fuel slug folder base p seen w').
Proof.
  induction fuel as [|fuel IH]; intros p seen w w' H; [by destruct H|].
  simpl in *. destruct (site (page_url base p)) as [e|cards]; [done|].
  destruct (is_repeat seen (media_ids cards)); [done|].
  match goal with
  | |- context [extract_items _ _ _ _ _ _ ?w2] =>
      destruct (extract_items_ok slug folder (page_url base p) cards 0 w2)
        as (wg & Hg & _); rewrite Hg
  end.
  match type of H with
  | context [extract_items _ _ _ _ _ _ ?w2] =>
      destruct (extract_items_ok slug folder (page_url base p) cards 0 w2)
        as (wh & Hh & _); rewrite Hh in H
  end.
  eapply IH, H.
Qed.

(** The driver's loop ends whenever the crawl of each catalog ends. *)
Lemma main_loop_ends fuel subpages : ∀ w0,
  (∀ u, u ∈ subpages →
        is_Some (scrape_media_items site http url_path fuel u (World ∅ []))) →
  is_Some (main_loop site http url_path fuel subpages w0).
Proof.
  induction subpages as [|u subpages IH]; intros w0 Hall.
  { by eexists. }
  simpl. destruct (crawl_ends_anywhere fuel (catalog_slug url_path u)
             (catalog_folder url_path u) u 1 ∅ (World ∅ []) w0) as [[r w'] Hu].
  { apply Hall, list_elem_of_here. }
  unfold scrape_media_items. rewrite Hu.
  destruct r as [[]|err]; apply IH; intros u' Hu'; by apply Hall, list_elem_of_further.
Qed.

(** C9: a page that times out ends the crawl of its catalog with the
    error, the driver prints the failure of that catalog and goes on with
    the catalogs after it; and once the entry page has given its links,
    [main] ends normally whenever the crawl of each catalog ends, be it
    normally or with an error. *)
Theorem page_timeout_aborts_only_its_catalog fuel pre url post k e w w1 :
  main_loop site http url_path fuel pre w = Some w1 →
  1 ≤ k ≤ fuel →
  (∀ q, 1 ≤ q < k → ∃ cards, site (page_url url q) = Loaded cards) →
  (∀ q, 1 ≤ q < k → ¬ repeats_at site url q) →
  site (page_url url k) = TimedOut e →
  (∃ w2,
     scrape_media_items site http url_path fuel url w1 = Some (Raise e, w2)
     ∧ main_loop site http url_path fuel (pre ++ url :: post) w
       = main_loop site http url_path fuel post
           (World (fs w2)
              (trace w2 ++ [Print ("❌ Failed to process " +:+ url +:+ ": " +:+ e)])))
  ∧ (∀ links w0,
       (∀ u, u ∈ subpages_of links →
             is_Some (scrape_media_items site http url_path fuel u (World ∅ []))) →
       ∃ w', main site http url_path (Ok links) fuel w0 = Some (Ok tt, w')).
Proof.
  intros Hpre Hk Hload Hfresh Htimeout. split.
  - remember (fuel - k) as r eqn:Hr.
    assert (fuel = k - 1 + S r) as -> by lia. clear Hr.
    destruct (crawl_through (catalog_slug url_path url) (catalog_folder url_path url)
                url (k - 1) 1 (S r) w1 ltac:(lia)) as (w2 & H2 & _).
    { intros q Hq. apply Hload. lia. }
    { intros q Hq. apply Hfresh. lia. }
    assert (scrape_media_items site http url_path (k - 1 + S r) url w1
            = Some (Raise e, World (fs w2) (trace w2 ++ [Goto (page_url url k)])))
      as Hscrape.
    { unfold scrape_media_items.
      change (∅ : gset string) with (seen_before site url 1).
      rewrite H2. replace (1 + (k - 1)) with k by lia.
      simpl. by rewrite Htimeout. }
    eexists. split; [done|].
    rewrite main_loop_app, Hpre. simpl. by rewrite Hscrape.
  - intros links w0 Hall. unfold main, get_subpages, mbind, M_bind, emit. simpl.
    match goal with
    | |- context [main_loop _ _ _ _ _ ?w1] =>
        destruct (main_loop_ends fuel (subpages_of links) w1 Hall) as [w' Hw']
    end.
    rewrite Hw'. by exists w'.
Qed.

End Crawler.

(** ** One item *)

Section Item.

Context (http : string → http_result) (url_path : string → string).

(** *** Paths *)

Lemma split_no_sep sep s : Forall (λ w, has_char sep w = false) (Py.split sep s).
Proof.
  induction s as [|c s IH]; [by repeat constructor|].
  simpl. destruct (Py.is_char sep c) eqn:Hc; [by constructor|].
  destruct (Py.split sep s) as [|w ws]; [by repeat constructor; simpl; rewrite Hc|].
  inversion IH as [|? ? Hw Hws]; subst. constructor; [|done].
  simpl. by rewrite Hc, Hw.
Qed.

Lemma last_Forall (P : string → Prop) l d : Forall P l → P d → P (List.last l d).
Proof.
  intros Hl Hd. induction Hl as [|x l Hx Hl IH]; [done|].
  simpl. by destruct l.
Qed.

Lemma catalog_slug_no_slash base : has_char "/" (catalog_slug url_path base) = false.
Proof.
  unfold catalog_slug, Py.last_item. apply last_Forall; [apply split_no_sep|done].
Qed.

Lemma filename_not_rooted slug a b c d e :
  has_char "/" slug = false →
  Py.startswith "/" (item_filename slug a b c d e) = false.
Proof.
  unfold item_filename. destruct slug as [|x slug]; [done|].
  simpl. intros [Hx _]%orb_false_elim. unfold Py.is_char in Hx.
  apply bool_decide_eq_false in Hx. rewrite andb_true_r.
  apply bool_decide_eq_false. congruence.
Qed.

Lemma filename_has_underscore slug a b c d e :
  has_char "_" (item_filename slug a b c d e) = true.
Proof.
  unfold item_filename. rewrite has_char_app. apply orb_true_intro. by right.
Qed.

Lemma path_join_inj folder a b :
  Py.startswith "/" a = false → Py.startswith "/" b = false →
  Py.path_join folder a = Py.path_join folder b → a = b.
Proof.
  unfold Py.path_join. intros -> ->.
  destruct (_ || _); intros H; by repeat apply String.app_inj in H.
Qed.

(** The asset of an item never lands on the metadata log. *)
Lemma asset_path_ne_metadata base idx p :
  asset_path url_path base idx p ≠ metadata_path url_path base.
Proof.
  unfold asset_path, metadata_path, player_filename. intros H.
  apply path_join_inj in H; [| apply filename_not_rooted, catalog_slug_no_slash | done].
  pose proof (filename_has_underscore (catalog_slug url_path base)
                (get_date_slug (item_date p)) (sanitize_filename (item_series p))
                (sanitize_filename (item_speaker p))
                (sanitize_filename (item_title idx p)) (Py.splitext_ext (src p))) as Hu.
  rewrite H in Hu. discriminate.
Qed.

(** The record the code writes is the record of the item. *)
Lemma metadata_block_text filename idx p :
  metadata_block filename idx p = item_record filename idx p.
Proof. reflexivity. Qed.

Lemma item_record_not_empty filename idx p : item_record filename idx p ≠ "".
Proof. discriminate. Qed.

(** C4: when the asset server answers the item's asset URL with a status
    other than 200, [download_mp3] ends normally having printed the
    failure and written nothing; the extractor ends normally, no file
    exists at the item's destination, and the metadata log of the catalog
    has grown by exactly the item's record: the six labelled lines and the
    rule. *)
Theorem failed_download_still_logs_metadata base url idx c p status body w :
  let slug := catalog_slug url_path base in
  let folder := catalog_folder url_path base in
  let filepath := asset_path url_path base idx p in
  let log := metadata_path url_path base in
  let record :=
    "Filename: " +:+ player_filename slug idx p +:+ nl +:+
    "Title: " +:+ default ("untitled-" +:+ Py.str_nat (idx + 1)) (title_el p) +:+ nl +:+
    "Date: " +:+ default "" (date_el p) +:+ nl +:+
    "Speaker: " +:+ default "unknown-speaker" (speaker_el p) +:+ nl +:+
    "Series: " +:+ default "unknown-series" (series_el p) +:+ nl +:+
    "MP3 URL: " +:+ src p +:+ nl +:+
    "----------------------------------------" +:+ nl in
  activate c = Reveals p →
  http (src p) = Response status body →
  status ≠ 200 →
  fs w !! filepath = None →
  download_mp3 http (src p) filepath w
  = (Ok tt, World (fs w)
              (trace w ++ [HttpGet (src p);
                           Print ("❌ Failed to download: " +:+ src p)]))
  ∧ ∃ w',
      extract_item http slug folder url idx c w = (Ok tt, w')
      ∧ fs w' = <[log := default "" (fs w !! log) +:+ record]> (fs w)
      ∧ fs w' !! log = Some (default "" (fs w !! log) +:+ record)
      ∧ fs w' !! log ≠ fs w !! log
      ∧ fs w' !! filepath = None
      ∧ trace w' = trace w ++ [Activate url idx; HttpGet (src p);
                               Print ("❌ Failed to download: " +:+ src p)].
Proof.
  intros slug folder filepath log record Hc Hhttp Hstatus Hfree.
  apply Nat.eqb_neq in Hstatus.
  assert (download_mp3 http (src p) filepath w
          = (Ok tt, World (fs w)
                      (trace w ++ [HttpGet (src p);
                                   Print ("❌ Failed to download: " +:+ src p)])))
    as Hdl.
  { unfold download_mp3, mbind, M_bind, print, emit. simpl.
    rewrite Hhttp, Hstatus. simpl. by rewrite <- app_assoc. }
  split; [done|].
  unfold extract_item, try_except, extract_body, mbind, M_bind, path_exists.
  unfold emit at 1. simpl. rewrite Hc. simpl.
  fold slug folder. change (Py.path_join folder (player_filename slug idx p)) with filepath.
  rewrite Hfree. rewrite bool_decide_eq_false_2 by by intros [? ?].
  unfold download_mp3, mbind, M_bind, print, emit. simpl.
  rewrite Hhttp, Hstatus. simpl.
  change (Py.path_join folder "metadata.txt") with log.
  change (metadata_block (player_filename slug idx p) idx p) with record.
  eexists. split; [done|]. simpl. split; [done|]. split; [|split; [|split]].
  - by rewrite lookup_insert_eq.
  - rewrite lookup_insert_eq. destruct (fs w !! log) as [old|]; [|done].
    simpl. intros [= H]. rewrite <- (sapp_nil_r old) in H at 2.
    by apply String.app_inj in H.
  - rewrite lookup_insert_ne; [done|].
    intros H. by apply (asset_path_ne_metadata base idx p).
  - by rewrite <- !app_assoc.
Qed.

(** C7: an item whose asset is served with status 200 and is not yet on
    disk, processed twice.  The first run fetches the asset and writes
    it; the second finds the file, prints that it is already downloaded
    and sends no request.  The asset file is the same after both runs,
    while the metadata log holds the item's record, six labelled lines
    and the rule, once more after the first run and once more again after
    the second: the second run changes the log. *)
Theorem second_run_skips_download_but_logs_again base url idx c p body w :
  let slug := catalog_slug url_path base in
  let folder := catalog_folder url_path base in
  let filename := player_filename slug idx p in
  let filepath := asset_path url_path base idx p in
  let log := metadata_path url_path base in
  let record :=
    "Filename: " +:+ filename +:+ nl +:+
    "Title: " +:+ default ("untitled-" +:+ Py.str_nat (idx + 1)) (title_el p) +:+ nl +:+
    "Date: " +:+ default "" (date_el p) +:+ nl +:+
    "Speaker: " +:+ default "unknown-speaker" (speaker_el p) +:+ nl +:+
    "Series: " +:+ default "unknown-series" (series_el p) +:+ nl +:+
    "MP3 URL: " +:+ src p +:+ nl +:+
    "----------------------------------------" +:+ nl in
  let before := default "" (fs w !! log) in
  activate c = Reveals p →
  http (src p) = Response 200 body →
  fs w !! filepath = None →
  ∃ w1 w2,
    extract_item http slug folder url idx c w = (Ok tt, w1)
    ∧ extract_item http slug folder url idx c w1 = (Ok tt, w2)
    ∧ fs w1 = <[log := before +:+ record]> (<[filepath := body]> (fs w))
    ∧ fs w2 = <[log := (before +:+ record) +:+ record]> (<[filepath := body]> (fs w))
    ∧ fs w1 !! filepath = Some body ∧ fs w2 !! filepath = Some body
    ∧ fs w2 !! log ≠ fs w1 !! log
    ∧ http_gets (trace w1) = http_gets (trace w) ++ [src p]
    ∧ http_gets (trace w2) = http_gets (trace w1)
    ∧ trace w2 = trace w1 ++ [Activate url idx;
                              Print ("✅ Already downloaded: " +:+ filename)]
    ∧ dom (fs w2) = dom (fs w) ∪ {[filepath; log]}.
Proof.
  intros slug folder filename filepath log record before Hc Hhttp Hfree.
  pose proof (asset_path_ne_metadata base idx p) as Hne. fold filepath log in Hne.
  eexists _, _. split; [|split].
  - unfold extract_item, try_except, extract_body, mbind, M_bind, path_exists.
    unfold emit at 1. simpl. rewrite Hc. simpl.
    fold slug folder. change (Py.path_join folder (player_filename slug idx p)) with filepath.
    rewrite Hfree. rewrite bool_decide_eq_false_2 by by intros [? ?].
    unfold download_mp3, mbind, M_bind, print, emit, write_file. simpl.
    rewrite Hhttp. simpl. reflexivity.
  - unfold extract_item, try_except, extract_body, mbind, M_bind, path_exists.
    unfold emit at 1. simpl. rewrite Hc. simpl.
    fold slug folder. change (Py.path_join folder (player_filename slug idx p)) with filepath.
    change (Py.path_join folder "metadata.txt") with log.
    rewrite lookup_insert_ne by done. rewrite lookup_insert_eq.
    rewrite bool_decide_eq_true_2 by by eexists.
    unfold print, emit. simpl. reflexivity.
  - simpl. change (Py.path_join folder "metadata.txt") with log.
    change (metadata_block (player_filename slug idx p) idx p) with record.
    rewrite (lookup_insert_ne _ filepath log) by done. fold before.
    rewrite lookup_insert_eq. simpl. rewrite insert_insert_eq.
    split; [done|]. split; [done|].
    split; [by rewrite lookup_insert_ne, lookup_insert_eq by done|].
    split; [by rewrite lookup_insert_ne, lookup_insert_eq by done|].
    split; [|split; [|split; [|split]]].
    + rewrite !lookup_insert_eq. intros [= H].
      rewrite <- (sapp_nil_r (before +:+ record)) in H at 2.
      by apply String.app_inj in H.
    + unfold http_gets. by rewrite <- !app_assoc, !omap_app.
    + unfold http_gets. by rewrite <- !app_assoc, !omap_app, app_nil_r.
    + by rewrite <- !app_assoc.
    + rewrite !dom_insert_L. apply set_eq. intros x.
      rewrite !elem_of_union, !elem_of_singleton. tauto.
Qed.

End Item.

(** ** Worked examples *)

Example sanitize_title :
  sanitize_filename "Dr. O'Neil's Talk: 1,000 ways -- part 2!"
  = "dr-o-neil-s-talk-1000-ways-part-2".
Proof. reflexivity. Qed.

Example date_leap_day : get_date_slug "february  29,  2024" = "2024-02-29".
Proof. reflexivity. Qed.

Example date_no_such_day : get_date_slug "February 29, 2023" = "unknown-date".
Proof. reflexivity. Qed.

Example date_trailing_text : get_date_slug "March 03, 2024x" = "unknown-date".
Proof. reflexivity. Qed.

Example split_slash : Py.split "/" "a/b//c" = ["a"; "b"; ""; "c"].
Proof. reflexivity. Qed.

Example splitext_mp3 : Py.splitext_ext "https://cdn.example/a.b/talk.v2.mp3" = ".mp3".
Proof. reflexivity. Qed.

Example splitext_hidden : Py.splitext_ext "dir.d/..rc" = "".
Proof. reflexivity. Qed.

Example demo_slug : catalog_slug Demo.url_path Demo.sermons = "sermons".
Proof. reflexivity. Qed.

Example demo_asset_path :
  asset_path Demo.url_path Demo.sermons 0 (Demo.talk "Grace")
  = "downloads/sermons/sermons_2024-03-03_unknown-series_john-doe_grace.mp3".
Proof. reflexivity. Qed.

Lemma subpages_of_sorted_filter_witness :
  START_URL +:+ "//" ∉ subpages_of [START_URL +:+ "//"; Demo.sermons].
Proof.
  exact (proj2 (proj2 (proj2
           (subpages_of_sorted_filter [START_URL +:+ "//"; Demo.sermons]))) 2).
Defined.

Lemma crawl_stops_at_first_repeat_witness :
  ∃ w' t,
    scrape_media_items Demo.site Demo.http_ok Demo.url_path 5 Demo.sermons Demo.w0
    = Some (Ok tt, w')
    ∧ trace w' = t ++ [Goto (page_url Demo.sermons 2);
                       Print (visiting_line (page_url Demo.sermons 2)
                                (length (page_cards Demo.site Demo.sermons 2)));
                       Print (stop_line 2)]
    ∧ gotos (trace w')
      = gotos (trace Demo.w0) ++ map (page_url Demo.sermons) (seq 1 2)
    ∧ activations t
      = activations (trace Demo.w0)
        ++ flat_map (page_activations Demo.site Demo.sermons) (seq 1 (2 - 1)).
Proof.
  apply (crawl_stops_at_first_repeat Demo.site Demo.http_ok Demo.url_path
           Demo.sermons 2 5 Demo.w0).
  - lia.
  - lia.
  - intros q Hq. assert (q = 1 ∨ q = 2) as [-> | ->] by lia; eexists; reflexivity.
  - intros q Hq. assert (q = 1) as -> by lia.
    intros (mid & _ & H). change (mid ∈ (∅ : gset string)) in H.
    by apply not_elem_of_empty in H.
  - exists "b". split; apply (bool_decide_unpack _); vm_compute; exact I.
Defined.

(** C10 (counterexample): on page 2 two cards carry the identifier [a],
    which no earlier page has shown, and a third card the identifier [b]
    of page 1.  The page is a repeat: the loop stops at it, and the
    extractor is started on neither of the two cards. *)
Lemma duplicate_ids_beside_seen_id_are_repeat :
  Demo.mixed_site (page_url Demo.sermons 2) = Loaded [Demo.card_a; Demo.card_a; Demo.card_b]
  ∧ media_ids [Demo.card_a; Demo.card_a; Demo.card_b] = ["a"; "a"; "b"]
  ∧ seen_before Demo.mixed_site Demo.sermons 2 = {["b"]}
  ∧ ("a" ∉ seen_before Demo.mixed_site Demo.sermons 2)
  ∧ is_repeat (seen_before Demo.mixed_site Demo.sermons 2)
      (media_ids [Demo.card_a; Demo.card_a; Demo.card_b]) = true
  ∧ ∃ w',
      crawl Demo.mixed_site Demo.http_ok 5 "sermons" "downloads/sermons" Demo.sermons 1 ∅
        Demo.w0 = Some (Ok tt, w')
      ∧ gotos (trace w') = [page_url Demo.sermons 1; page_url Demo.sermons 2]
      ∧ activations (trace w') = [(page_url Demo.sermons 1, 0)]
      ∧ ((page_url Demo.sermons 2, 0) ∉ activations (trace w'))
      ∧ ((page_url Demo.sermons 2, 1) ∉ activations (trace w'))
      ∧ last (trace w') = Some (Print (stop_line 2)).
Proof.
  assert (seen_before Demo.mixed_site Demo.sermons 2 = {["b"]}) as Hseen.
  { unfold seen_before, page_ids, page_cards. simpl.
    by rewrite union_empty_r_L. }
  split; [reflexivity|]. split; [reflexivity|]. split; [exact Hseen|].
  split; [rewrite Hseen; by rewrite elem_of_singleton|].
  split.
  { rewrite Hseen. apply is_repeat_true. exists "b".
    split; [|by apply elem_of_singleton]. apply (bool_decide_unpack _). vm_compute. exact I. }
  eexists. split; [vm_compute; reflexivity|]. simpl.
  split; [reflexivity|]. split; [reflexivity|].
  split; [|split].
  - apply (bool_decide_unpack _). vm_compute. exact I.
  - apply (bool_decide_unpack _). vm_compute. exact I.
  - reflexivity.
Qed.

Lemma duplicate_ids_on_one_page_are_no_repeat_witness :
  is_repeat ∅ (media_ids [Demo.card_a; Demo.card_a]) = false
  ∧ ∃ w',
      crawl Demo.twin_site Demo.http_ok 3 "sermons" "downloads/sermons" Demo.sermons 1 ∅ Demo.w0
      = crawl Demo.twin_site Demo.http_ok 2 "sermons" "downloads/sermons" Demo.sermons 2
          (∅ ∪ list_to_set (media_ids [Demo.card_a; Demo.card_a])) w'
      ∧ (page_url Demo.sermons 1, 0) ∈ activations (trace w')
      ∧ (page_url Demo.sermons 1, 1) ∈ activations (trace w').
Proof.
  destruct (duplicate_ids_on_one_page_are_no_repeat Demo.twin_site Demo.http_ok
              2 "sermons" "downloads/sermons" Demo.sermons 1 ∅
              [Demo.card_a; Demo.card_a] 0 1 "a" Demo.w0)
    as (Hno & w' & Hstep & _ & H0 & H1 & _).
  - reflexivity.
  - lia.
  - reflexivity.
  - reflexivity.
  - intros x _. apply not_elem_of_empty.
  - split; [exact Hno|]. exists w'. split; [exact Hstep|]. split; [exact H0|exact H1].
Defined.

Lemma item_failure_is_logged_and_skipped_witness :
  ∃ w', extract_items Demo.http_ok "sermons" "downloads/sermons" Demo.sermons 0
          ([Demo.card_a] ++ Demo.card_b :: [Demo.card_c]) Demo.w0 = (Ok tt, w').
Proof.
  eapply (item_failure_is_logged_and_skipped Demo.http_ok "sermons" "downloads/sermons"
            Demo.sermons [Demo.card_a] Demo.card_b [Demo.card_c] Demo.timeout Demo.w0).
  - vm_compute. reflexivity.
  - vm_compute. reflexivity.
Defined.

Lemma page_timeout_aborts_only_its_catalog_witness :
  ∃ w2,
    scrape_media_items Demo.site Demo.http_ok Demo.url_path 5 Demo.events Demo.w0
    = Some (Raise Demo.timeout, w2)
    ∧ main_loop Demo.site Demo.http_ok Demo.url_path 5 ([] ++ Demo.events :: [Demo.sermons])
        Demo.w0
      = main_loop Demo.site Demo.http_ok Demo.url_path 5 [Demo.sermons]
          (World (fs w2)
             (trace w2 ++ [Print ("❌ Failed to process " +:+ Demo.events +:+ ": "
                                  +:+ Demo.timeout)])).
Proof.
  apply (page_timeout_aborts_only_its_catalog Demo.site Demo.http_ok Demo.url_path
           5 [] Demo.events [Demo.sermons] 1 Demo.timeout Demo.w0 Demo.w0).
  - reflexivity.
  - lia.
  - intros q Hq. lia.
  - intros q Hq. lia.
  - reflexivity.
Defined.

Lemma failed_download_still_logs_metadata_witness :
  ∃ w',
    extract_item Demo.http_gone (catalog_slug Demo.url_path Demo.sermons)
      (catalog_folder Demo.url_path Demo.sermons) Demo.sermons 0 Demo.card_a Demo.w0
    = (Ok tt, w')
    ∧ fs w' !! "downloads/sermons/metadata.txt"
      = Some ("Filename: sermons_2024-03-03_unknown-series_john-doe_grace.mp3" +:+ nl +:+
              "Title: Grace" +:+ nl +:+
              "Date: March 3, 2024" +:+ nl +:+
              "Speaker: John Doe" +:+ nl +:+
              "Series: unknown-series" +:+ nl +:+
              "MP3 URL: https://cdn.example.org/audio/2024/grace.mp3" +:+ nl +:+
              "----------------------------------------" +:+ nl)
    ∧ fs w' !! "downloads/sermons/sermons_2024-03-03_unknown-series_john-doe_grace.mp3"
      = None
    ∧ trace w' = trace Demo.w0 ++ [Activate Demo.sermons 0; HttpGet Demo.asset;
                                   Print ("❌ Failed to download: " +:+ Demo.asset)].
Proof.
  destruct (failed_download_still_logs_metadata Demo.http_gone Demo.url_path
              Demo.sermons Demo.sermons 0 Demo.card_a (Demo.talk "Grace") 404 "" Demo.w0)
    as (_ & w' & Hrun & _ & Hlog & _ & Hfree & Htrace).
  - reflexivity.
  - reflexivity.
  - lia.
  - reflexivity.
  - exists w'. split; [exact Hrun|]. split; [exact Hlog|]. split; [exact Hfree|exact Htrace].
Defined.

Lemma second_run_skips_download_but_logs_again_witness :
  ∃ w1 w2,
    extract_item Demo.http_ok (catalog_slug Demo.url_path Demo.sermons)
      (catalog_folder Demo.url_path Demo.sermons) Demo.sermons 0 Demo.card_a Demo.w0
    = (Ok tt, w1)
    ∧ extract_item Demo.http_ok (catalog_slug Demo.url_path Demo.sermons)
        (catalog_folder Demo.url_path Demo.sermons) Demo.sermons 0 Demo.card_a w1
      = (Ok tt, w2)
    ∧ http_gets (trace w2) = [Demo.asset]
    ∧ fs w2 !! "downloads/sermons/sermons_2024-03-03_unknown-series_john-doe_grace.mp3"
      = Some "ID3"
    ∧ fs w2 !! "downloads/sermons/metadata.txt"
      = Some ("Filename: sermons_2024-03-03_unknown-series_john-doe_grace.mp3" +:+ nl +:+
              "Title: Grace" +:+ nl +:+
              "Date: March 3, 2024" +:+ nl +:+
              "Speaker: John Doe" +:+ nl +:+
              "Series: unknown-series" +:+ nl +:+
              "MP3 URL: https://cdn.example.org/audio/2024/grace.mp3" +:+ nl +:+
              "----------------------------------------" +:+ nl +:+
              "Filename: sermons_2024-03-03_unknown-series_john-doe_grace.mp3" +:+ nl +:+
              "Title: Grace" +:+ nl +:+
              "Date: March 3, 2024" +:+ nl +:+
              "Speaker: John Doe" +:+ nl +:+
              "Series: unknown-series" +:+ nl +:+
              "MP3 URL: https://cdn.example.org/audio/2024/grace.mp3" +:+ nl +:+
              "----------------------------------------" +:+ nl).
Proof.
  destruct (second_run_skips_download_but_logs_again Demo.http_ok Demo.url_path
              Demo.sermons Demo.sermons 0 Demo.card_a (Demo.talk "Grace") "ID3" Demo.w0)
    as (w1 & w2 & H1 & H2 & _ & Hfs & _ & Hfile & _ & Hg1 & Hg2 & _ & _).
  - reflexivity.
  - reflexivity.
  - reflexivity.
  - exists w1, w2. split; [exact H1|]. split; [exact H2|]. split; [|split].
    + rewrite Hg2, Hg1. reflexivity.
    + exact Hfile.
    + rewrite Hfs. apply lookup_insert_eq.
Defined.


(** * Further properties *)

(** ** The shape of a sanitized name *)

Lemma all_chars_app p s t : all_chars p (s +:+ t) = all_chars p s && all_chars p t.
Proof.
  induction s as [|c s IH]; [done|].
  rewrite sapp_cons. simpl. by rewrite IH, andb_assoc.
Qed.

Lemma sub_runs_all (P Q cls : ascii → bool) rep b s :
  (∀ c, P c = true → cls c = false → Q c = true) →
  all_chars Q rep = true →
  all_chars P s = true → all_chars Q (Slugify.sub_runs cls rep b s) = true.
Proof.
  intros Hkeep Hrep. revert b. induction s as [|c s IH]; intros b; [done|].
  simpl. intros [Hc Hs]%andb_prop. destruct (cls c) eqn:Hcls.
  - destruct b; [by apply IH|]. rewrite all_chars_app, Hrep. by apply IH.
  - simpl. rewrite (Hkeep c Hc Hcls). by apply IH.
Qed.

Lemma lower_no_upper s : all_chars (λ c, negb (Py.isupper c)) (Py.lower s) = true.
Proof.
  induction s as [|c s IH]; [done|]. simpl. rewrite IH, andb_true_r.
  by destruct c as [[] [] [] [] [] [] [] []].
Qed.

Lemma drop_digit_commas_all (P : ascii → bool) b s :
  all_chars P s = true → all_chars P (Slugify.drop_digit_commas b s) = true.
Proof.
  revert b. induction s as [|c s IH]; intros b; [done|].
  simpl. intros [Hc Hs]%andb_prop.
  destruct (_ && _); [by apply IH|]. simpl. rewrite Hc. by apply IH.
Qed.

Lemma lstrip_all (P p : ascii → bool) s :
  all_chars P s = true → all_chars P (Py.lstrip p s) = true.
Proof.
  induction s as [|c s IH]; [done|]. simpl. intros [Hc Hs]%andb_prop.
  destruct (p c); [by apply IH|]. simpl. by rewrite Hc.
Qed.

Lemma rstrip_all (P p : ascii → bool) s :
  all_chars P s = true → all_chars P (Py.rstrip p s) = true.
Proof.
  induction s as [|c s IH]; [done|]. simpl. intros [Hc Hs]%andb_prop.
  specialize (IH Hs). destruct (Py.rstrip p s) as [|c' r].
  - destruct (p c); [done|]. simpl. by rewrite Hc.
  - change (all_chars P (String c (String c' r)))
      with (P c && all_chars P (String c' r)). by rewrite Hc.
Qed.

Lemma lstrip_head p s : head_is p (Py.lstrip p s) = false.
Proof.
  induction s as [|c s IH]; [done|]. simpl. by destruct (p c) eqn:Hc.
Qed.

Lemma rstrip_head p s : head_is p s = false → head_is p (Py.rstrip p s) = false.
Proof.
  destruct s as [|c s]; [done|]. simpl. intros Hc.
  destruct (Py.rstrip p s); [by rewrite Hc|done].
Qed.

Lemma rstrip_end d s : Py.endswith_char d (Py.rstrip (Py.is_char d) s) = false.
Proof.
  induction s as [|c s IH]; [done|]. simpl.
  destruct (Py.rstrip (Py.is_char d) s) as [|c' r] eqn:Hr.
  - by destruct (Py.is_char d c) eqn:Hc.
  - exact IH.
Qed.

Lemma no_double_tail d c s : no_double d (String c s) = true → no_double d s = true.
Proof. simpl. by intros [_ ?]%andb_prop. Qed.

Lemma lstrip_no_double d p s : no_double d s = true → no_double d (Py.lstrip p s) = true.
Proof.
  induction s as [|c s IH]; [done|]. intros H. simpl.
  destruct (p c); [|done]. by apply IH, (no_double_tail d c).
Qed.

Lemma rstrip_no_double d p s : no_double d s = true → no_double d (Py.rstrip p s) = true.
Proof.
  induction s as [|c s IH]; [done|]. simpl. intros [Hc Hs]%andb_prop.
  specialize (IH Hs). destruct (Py.rstrip p s) as [|c' r] eqn:Hr.
  - destruct (p c); [done|]. simpl. by rewrite andb_false_r.
  - change (no_double d (String c (String c' r)))
      with (negb (Py.is_char d c && Py.is_char d c') && no_double d (String c' r)).
    rewrite IH, andb_true_r.
    destruct s as [|c'' s']; [done|]. simpl in Hr.
    destruct (Py.rstrip p s') as [|? ?]; [destruct (p c'')|]; by simplify_eq.
Qed.

(** Collapsing the runs of dashes leaves no two dashes in a row. *)
Lemma sub_runs_dash_no_double s : ∀ b,
  no_double "-" (Slugify.sub_runs Slugify.is_dash "-" b s) = true
  ∧ (b = true → head_is Slugify.is_dash (Slugify.sub_runs Slugify.is_dash "-" b s) = false).
Proof.
  induction s as [|c s IH]; intros b; [done|].
  simpl. destruct (Slugify.is_dash c) eqn:Hc.
  - destruct (IH true) as [Hnd Hhd]. destruct b; [done|].
    split; [|done]. change ("-" +:+ ?x) with (String "-" x). simpl.
    change (Py.is_char "-") with Slugify.is_dash. by rewrite (Hhd eq_refl), Hnd.
  - destruct (IH false) as [Hnd _]. split; [|done].
    simpl. change (Py.is_char "-") with Slugify.is_dash. by rewrite Hc, Hnd.
Qed.

Lemma slugify_shape text : slug_shape (Slugify.slugify text).
Proof.
  unfold Slugify.slugify, Slugify.decode, Py.strip.
  set (t := Slugify.drop_digit_commas _ _).
  assert (all_chars (λ c, negb (Py.isupper c)) t = true) as Ht.
  { apply drop_digit_commas_all.
    apply (sub_runs_all (λ c, negb (Py.isupper c))); [done|done|].
    apply lower_no_upper. }
  set (u := Slugify.sub_runs Slugify.is_dash _ _ _).
  assert (all_chars slug_char u = true) as Hu.
  { apply (sub_runs_all slug_char); [done|done|].
    apply (sub_runs_all (λ c, negb (Py.isupper c))); [|done|done].
    intros c Hup Hdis. unfold Slugify.disallowed in Hdis. unfold slug_char.
    destruct (Slugify.is_dash c), (Py.islower c), (Py.isupper c), (Py.isdigit c); done. }
  split; [|split; [|split]].
  - by apply rstrip_all, lstrip_all.
  - apply rstrip_head, lstrip_head.
  - apply rstrip_end.
  - apply rstrip_no_double, lstrip_no_double, sub_runs_dash_no_double.
Qed.

(** X1: whatever the text, [sanitize_filename] returns lowercase letters,
    digits and dashes only, with no dash at either end and no two dashes
    in a row; in particular no slash and no dot. *)
Theorem sanitize_filename_is_slug text :
  slug_shape (sanitize_filename text)
  ∧ has_char "/" (sanitize_filename text) = false
  ∧ has_char "." (sanitize_filename text) = false.
Proof.
  pose proof (slugify_shape (or_default text "untitled")) as Hshape.
  split; [done|]. destruct Hshape as [Hchars _]. fold (sanitize_filename text) in Hchars.
  revert Hchars. generalize (sanitize_filename text). intros s.
  induction s as [|c s IH]; [done|]. simpl. intros [Hc Hs]%andb_prop.
  destruct (IH Hs) as [-> ->]. rewrite !orb_false_r.
  revert Hc. by destruct c as [[] [] [] [] [] [] [] []].
Qed.


Lemma slug_char_class c :
  slug_char c = true →
  Slugify.is_quote c = false ∧ Py.isupper c = false
  ∧ Py.is_char "," c = false ∧ Slugify.disallowed c = false.
Proof.
  destruct c as [[] [] [] [] [] [] [] []]; intros H; try discriminate H; done.
Qed.

Lemma sub_runs_dash_id s : ∀ b,
  no_double "-" s = true →
  (b = true → head_is Slugify.is_dash s = false) →
  Slugify.sub_runs Slugify.is_dash "-" b s = s.
Proof.
  induction s as [|c s IH]; intros b Hnd Hhd; [done|].
  simpl in *. apply andb_prop in Hnd as [Hpair Hnd].
  change (Py.is_char "-") with Slugify.is_dash in Hpair.
  destruct (Slugify.is_dash c) eqn:Hc.
  - destruct b; [by specialize (Hhd eq_refl)|].
    apply is_char_eq in Hc as ->. rewrite IH; [done|done|].
    intros _. simpl in Hpair. by apply negb_true_iff in Hpair.
  - by rewrite IH.
Qed.

Lemma lstrip_keep p s : head_is p s = false → Py.lstrip p s = s.
Proof. destruct s as [|c s]; [done|]. simpl. by intros ->. Qed.

Lemma rstrip_id d s :
  Py.endswith_char d s = false → Py.rstrip (Py.is_char d) s = s.
Proof.
  induction s as [|c s IH]; [done|]. simpl. destruct s as [|c' s'].
  - simpl. by intros ->.
  - intros H. by rewrite (IH H).
Qed.

(** X2: a name that already is a slug is left as it is: sanitizing is
    the identity on non-empty slugs, and sanitizing twice gives the same
    as sanitizing once unless the first result is empty. *)
Theorem sanitize_filename_fixes_slugs :
  (∀ s, slug_shape s → s ≠ "" → sanitize_filename s = s)
  ∧ (∀ text, sanitize_filename text ≠ "" →
             sanitize_filename (sanitize_filename text) = sanitize_filename text).
Proof.
  assert (∀ s, slug_shape s → s ≠ "" → sanitize_filename s = s) as Hfix.
  { intros s (Hchars & Hhead & Hend & Hnd) Hne.
    unfold sanitize_filename, or_default. rewrite bool_decide_eq_false_2 by done.
    assert (∀ c, slug_char c = true → Slugify.is_quote c = false) as Hq
      by (intros c Hc; by destruct (slug_char_class c Hc) as (? & ? & ? & ?)).
    assert (∀ c, slug_char c = true → Py.isupper c = false) as Hu
      by (intros c Hc; by destruct (slug_char_class c Hc) as (? & ? & ? & ?)).
    assert (∀ c, slug_char c = true → Py.is_char "," c = false) as Hcomma
      by (intros c Hc; by destruct (slug_char_class c Hc) as (? & ? & ? & ?)).
    assert (∀ c, slug_char c = true → Slugify.disallowed c = false) as Hd
      by (intros c Hc; by destruct (slug_char_class c Hc) as (? & ? & ? & ?)).
    unfold Slugify.slugify, Slugify.decode.
    rewrite (sub_runs_outside slug_char Slugify.is_quote "-" false s Hq Hchars).
    rewrite (lower_outside slug_char s Hu Hchars).
    rewrite (sub_runs_outside slug_char Slugify.is_quote "" false s Hq Hchars).
    rewrite (drop_digit_commas_outside slug_char false s Hcomma Hchars).
    rewrite (sub_runs_outside slug_char Slugify.disallowed "-" false s Hd Hchars).
    rewrite (sub_runs_dash_id s false Hnd) by done.
    unfold Py.strip. rewrite lstrip_keep by done. by apply rstrip_id. }
  split; [done|].
  intros text Hne. apply Hfix; [|done]. apply slugify_shape.
Qed.

Lemma sanitize_filename_fixes_slugs_witness :
  sanitize_filename "john-doe" = "john-doe"
  ∧ sanitize_filename (sanitize_filename "John  Doe!") = sanitize_filename "John  Doe!".
Proof.
  split.
  - apply (proj1 sanitize_filename_fixes_slugs); [by repeat split|discriminate].
  - apply (proj2 sanitize_filename_fixes_slugs). vm_compute. discriminate.
Defined.

(** ** Dates *)

Lemma match_month_range names : ∀ n s k r,
  Strptime.match_month names n s = Some (k, r) → n ≤ k < n + length names.
Proof.
  induction names as [|name names IH]; intros n s k r H; [done|].
  simpl in H. destruct (Strptime.strip_prefix_ci name s).
  - simplify_eq. simpl. lia.
  - apply IH in H. simpl. lia.
Qed.

Lemma between_code lo hi c :
  Py.between lo hi c = true → lo ≤ Py.code c ≤ hi.
Proof.
  unfold Py.between. intros [H1 H2]%andb_prop.
  apply Nat.leb_le in H1, H2. lia.
Qed.

Lemma match_day_comma_pos s d r :
  Strptime.match_day_comma s = Some (d, r) → 1 ≤ d.
Proof.
  unfold Strptime.match_day_comma, Strptime.digit_val.
  destruct s as [|a [|b [|c t]]]; try done.
  - destruct (_ && _) eqn:H; [|done]. intros [= <- <-].
    apply andb_prop in H as [_ H%between_code]. lia.
  - destruct (Py.is_char "," c && Py.isdigit a && Py.isdigit b).
    + destruct (Py.is_char "3" a && Py.between 48 49 b); [intros [= <- <-]; lia|].
      destruct (Py.between 49 50 a) eqn:Ha.
      { intros [= <- <-]. apply between_code in Ha. lia. }
      destruct (Py.is_char "0" a && Py.between 49 57 b) eqn:Hb; [|done].
      intros [= <- <-]. apply andb_prop in Hb as [_ Hb%between_code]. lia.
    + destruct (_ && _) eqn:H; [|done]. intros [= <- <-].
      apply andb_prop in H as [_ H%between_code]. lia.
Qed.

Lemma match_year_end_lt s y :
  Strptime.match_year_end s = Some y → y < 10 * 1000.
Proof.
  unfold Strptime.match_year_end, Strptime.digit_val, Py.isdigit.
  destruct s as [|a [|b [|c [|d [|e t]]]]]; try done.
  destruct (Py.between 48 57 a) eqn:Ha; [|done].
  destruct (Py.between 48 57 b) eqn:Hb; [|done].
  destruct (Py.between 48 57 c) eqn:Hc; [|done].
  destruct (Py.between 48 57 d) eqn:Hd; [|done].
  apply between_code in Ha, Hb, Hc, Hd. cbn [andb]. intros [= <-]. lia.
Qed.

(** X3: whatever the text, [get_date_slug] returns either [unknown-date]
    or the writing of a day that exists in the Gregorian calendar: the
    year, from 1 to 9999, in decimal without leading zeros, then the
    month, from 1 to 12, and a day that month has in that year, each on
    two digits. *)
Theorem get_date_slug_is_calendar_date text :
  get_date_slug text = "unknown-date"
  ∨ ∃ y m d,
      1 ≤ m ≤ 12 ∧ 1 ≤ d ≤ calendar_days y m ∧ 1 ≤ y < 10 * 1000
      ∧ get_date_slug text
        = Py.str_nat y +:+ "-" +:+ Strptime.pad2 m +:+ "-" +:+ Strptime.pad2 d.
Proof.
  unfold get_date_slug, Strptime.strptime.
  destruct (Strptime.match_month _ _ _) as [[m s1]|] eqn:Hm; [|by left].
  destruct (Strptime.match_spaces s1) as [s2|]; [|by left].
  destruct (Strptime.match_day_comma s2) as [[d s3]|] eqn:Hd; [|by left].
  destruct (Strptime.match_spaces s3) as [s4|]; [|by left].
  destruct (Strptime.match_year_end s4) as [y|] eqn:Hy; [|by left].
  destruct ((1 <=? y) && (d <=? Strptime.days_in_month y m)) eqn:Hvalid; [|by left].
  right. exists y, m, d.
  apply andb_prop in Hvalid as [Hy1%Nat.leb_le Hdm%Nat.leb_le].
  apply match_month_range in Hm. apply match_day_comma_pos in Hd.
  apply match_year_end_lt in Hy. simpl in Hm.
  rewrite calendar_days_model in Hdm by lia. repeat split; try lia.
Qed.

Lemma lstrip_class p s : all_chars p s = true → Py.lstrip p s = "".
Proof.
  induction s as [|c s IH]; [done|]. simpl. intros [-> Hs]%andb_prop. auto.
Qed.

Lemma lstrip_app p s t :
  Py.lstrip p (s +:+ t)
  = if all_chars p s then Py.lstrip p t else Py.lstrip p s +:+ t.
Proof.
  induction s as [|c s IH]; [done|]. rewrite sapp_cons. simpl.
  destruct (p c); [done|]. reflexivity.
Qed.

Lemma strip_around p pre s post :
  all_chars p pre = true → all_chars p post = true →
  Py.strip p (pre +:+ s +:+ post) = Py.strip p s.
Proof.
  intros Hpre Hpost. unfold Py.strip.
  rewrite lstrip_app_class by done. rewrite lstrip_app.
  destruct (all_chars p s) eqn:Hs.
  - by rewrite !lstrip_class.
  - by apply rstrip_app_class.
Qed.

(** X4: white space around the text does not matter to [get_date_slug]:
    adding any to either side of any text gives the same result. *)
Theorem get_date_slug_ignores_surrounding_space pre text post :
  all_chars Py.isspace pre = true → all_chars Py.isspace post = true →
  get_date_slug (pre +:+ text +:+ post) = get_date_slug text.
Proof.
  intros Hpre Hpost. unfold get_date_slug. by rewrite strip_around.
Qed.

Lemma get_date_slug_ignores_surrounding_space_witness :
  get_date_slug (nl +:+ "june 1, 2020" +:+ "  ") = get_date_slug "june 1, 2020".
Proof.
  apply get_date_slug_ignores_surrounding_space; reflexivity.
Defined.

(** ** The discoverer *)

Lemma subpages_of_NoDup links : NoDup (subpages_of links).
Proof. unfold subpages_of. rewrite merge_sort_Permutation. apply NoDup_elements. Qed.

Lemma subpages_of_sorted links : StronglySorted String.le (subpages_of links).
Proof. apply StronglySorted_merge_sort; apply _. Qed.

(** X5: the result of the discoverer depends on which links the entry
    page shows, not on their order or on how often each occurs; and
    discovering among its own result changes nothing. *)
Theorem subpages_of_depends_on_link_set :
  (∀ links1 links2,
     (∀ l, l ∈ links1 ↔ l ∈ links2) → subpages_of links1 = subpages_of links2)
  ∧ (∀ links, subpages_of (subpages_of links) = subpages_of links).
Proof.
  assert (∀ links1 links2,
     (∀ l, l ∈ subpages_of links1 ↔ l ∈ subpages_of links2) →
     subpages_of links1 = subpages_of links2) as Heq.
  { intros links1 links2 Hsame.
    apply (StronglySorted_unique String.le); [apply subpages_of_sorted..|].
    by apply NoDup_Permutation; [apply subpages_of_NoDup..|]. }
  split.
  - intros links1 links2 Hsame. apply Heq. intros l.
    rewrite !subpages_of_elem, Hsame. done.
  - intros links. apply Heq. intros l.
    rewrite (subpages_of_elem (subpages_of links)), subpages_of_elem. tauto.
Qed.

Lemma subpages_of_depends_on_link_set_witness :
  subpages_of [Demo.sermons; Demo.events; Demo.sermons]
  = subpages_of [Demo.events; Demo.sermons].
Proof.
  apply (proj1 subpages_of_depends_on_link_set).
  intros l. rewrite !elem_of_cons. tauto.
Defined.

(** ** File names and paths *)

Lemma rfind_none d s : Py.rfind d s = None → has_char d s = false.
Proof.
  induction s as [|c s IH]; [done|]. simpl.
  destruct (Py.rfind d s); [done|]. destruct (Py.is_char d c); [done|]. auto.
Qed.

Lemma rfind_some d s : ∀ i,
  Py.rfind d s = Some i → has_char d (Py.drop (S i) s) = false.
Proof.
  induction s as [|c s IH]; intros i; [done|]. simpl.
  destruct (Py.rfind d s) as [j|] eqn:Hj.
  - intros [= <-]. by apply IH.
  - destruct (Py.is_char d c); [|done]. intros [= <-].
    destruct s; by apply rfind_none.
Qed.

Lemma has_char_drop d k : ∀ s, has_char d s = false → has_char d (Py.drop k s) = false.
Proof.
  induction k as [|k IH]; intros [|c s] H; try done.
  simpl in *. apply orb_false_elim in H as [_ H]. by apply IH.
Qed.

Lemma drop_drop n k : ∀ s, Py.drop (n + k) s = Py.drop k (Py.drop n s).
Proof.
  induction n as [|n IH]; intros [|c s]; try done.
  - by destruct k.
  - simpl. apply IH.
Qed.

(** The extension [splitext] gives has no slash. *)
Lemma splitext_ext_no_slash p : has_char "/" (Py.splitext_ext p) = false.
Proof.
  unfold Py.splitext_ext. destruct (Py.rfind "." p) as [dot|]; [|done].
  destruct (_ && _) eqn:Hcond; [|done].
  apply andb_prop in Hcond as [Hle%Nat.leb_le _].
  destruct (Py.rfind "/" p) as [i|] eqn:Hi.
  - replace dot with (S i + (dot - S i)) by lia. rewrite drop_drop.
    by apply has_char_drop, rfind_some.
  - by apply has_char_drop, rfind_none.
Qed.

Lemma slug_chars_no_slash s : all_chars slug_char s = true → has_char "/" s = false.
Proof.
  induction s as [|c s IH]; [done|]. simpl. intros [Hc Hs]%andb_prop.
  rewrite (IH Hs), orb_false_r. revert Hc. by destruct c as [[] [] [] [] [] [] [] []].
Qed.

Lemma digit_char_not_slash n : n < 10 → Py.is_char "/" (Py.digit_char n) = false.
Proof.
  intros H. do 10 (destruct n as [|n]; [reflexivity|]). lia.
Qed.

Lemma str_nat_go_digits_only fuel : ∀ n acc,
  all_chars Py.isdigit acc = true → all_chars Py.isdigit (Py.str_nat_go fuel n acc) = true.
Proof.
  induction fuel as [|fuel IH]; intros n acc Hacc; [done|].
  rewrite str_nat_go_step.
  assert (all_chars Py.isdigit (String (Py.digit_char (n mod 10)) acc) = true) as Hacc'.
  { cbn [all_chars]. by rewrite digit_char_isdigit by (apply Nat.mod_upper_bound; lia). }
  destruct (n / 10 =? 0); [done|]. by apply IH.
Qed.

Lemma digits_no_slash s : all_chars Py.isdigit s = true → has_char "/" s = false.
Proof.
  induction s as [|c s IH]; [done|]. simpl. intros [Hc Hs]%andb_prop.
  rewrite (IH Hs), orb_false_r. revert Hc. by destruct c as [[] [] [] [] [] [] [] []].
Qed.

Lemma get_date_slug_no_slash text : has_char "/" (get_date_slug text) = false.
Proof.
  unfold get_date_slug. destruct (Strptime.strptime _) as [[y m d]|]; [|done].
  unfold Strptime.strftime, Strptime.pad2.
  cbn [Strptime.year Strptime.month Strptime.day]. rewrite !has_char_app.
  rewrite (digits_no_slash (Py.str_nat y)) by (by apply str_nat_go_digits_only).
  cbn [has_char]. rewrite !digit_char_not_slash by (apply Nat.mod_upper_bound; lia).
  reflexivity.
Qed.

Section ItemPaths.

Context (url_path : string → string).

Lemma player_filename_no_slash base idx p :
  has_char "/" (player_filename (catalog_slug url_path base) idx p) = false.
Proof.
  unfold player_filename, item_filename. rewrite !has_char_app.
  rewrite (catalog_slug_no_slash url_path), get_date_slug_no_slash, splitext_ext_no_slash.
  assert (∀ t, has_char "/" (sanitize_filename t) = false) as Hclean.
  { intros t. apply slug_chars_no_slash. apply slugify_shape. }
  rewrite !Hclean. reflexivity.
Qed.

Lemma endswith_char_app d s c t :
  Py.endswith_char d (s +:+ String c t) = Py.endswith_char d (String c t).
Proof.
  induction s as [|a s IH]; [done|]. rewrite sapp_cons.
  change (Py.endswith_char d (String a (s +:+ String c t)))
    with (match s +:+ String c t with
          | EmptyString => Py.is_char d a
          | _ => Py.endswith_char d (s +:+ String c t)
          end).
  destruct (s +:+ String c t) eqn:Hst; [|exact IH].
  destruct s; discriminate Hst.
Qed.

Lemma endswith_no_char d s : has_char d s = false → Py.endswith_char d s = false.
Proof.
  induction s as [|c s IH]; [done|]. simpl. intros [Hc Hs]%orb_false_elim.
  destruct s; [done|]. by apply IH.
Qed.

(** X6: the file name of an item has no slash, so its asset lands
    directly in the folder of its catalog, which lies directly in
    [downloads]: no item can place a file elsewhere through its title,
    speaker, series, date or asset URL. *)
Theorem asset_lands_in_catalog_folder base idx p :
  let slug := catalog_slug url_path base in
  let filename := player_filename slug idx p in
  has_char "/" slug = false
  ∧ has_char "/" filename = false
  ∧ asset_path url_path base idx p
    = "downloads/" +:+ (if bool_decide (slug = "") then "" else slug +:+ "/") +:+ filename.
Proof.
  intros slug filename.
  pose proof (catalog_slug_no_slash url_path base) as Hslug. fold slug in Hslug.
  pose proof (player_filename_no_slash base idx p) as Hname. fold slug filename in Hname.
  split; [done|]. split; [done|].
  unfold asset_path, catalog_folder. fold slug filename.
  assert (Py.startswith "/" filename = false) as Hroot.
  { destruct filename as [|c f]; [done|]. simpl in *.
    apply orb_false_elim in Hname as [Hc _]. unfold Py.is_char in Hc.
    apply bool_decide_eq_false in Hc. rewrite andb_true_r.
    apply bool_decide_eq_false. congruence. }
  destruct slug as [|c slug'] eqn:Hs.
  - unfold Py.path_join at 2. simpl. unfold Py.path_join. rewrite Hroot. by simpl.
  - rewrite bool_decide_eq_false_2 by done.
    assert (Py.path_join "downloads" (String c slug') = "downloads/" +:+ String c slug') as ->.
    { unfold Py.path_join. simpl in Hslug. apply orb_false_elim in Hslug as [Hc _].
      unfold Py.is_char in Hc. apply bool_decide_eq_false in Hc. simpl.
      rewrite bool_decide_eq_false_2 by congruence. by simpl. }
    unfold Py.path_join. rewrite Hroot.
    rewrite bool_decide_eq_false_2 by done.
    rewrite (endswith_char_app "/" "downloads/" c slug').
    rewrite (endswith_no_char "/" (String c slug') Hslug). simpl.
    by rewrite !sapp_assoc.
Qed.

End ItemPaths.

(** ** The runs of the extractor *)

Section ItemRuns.

Context (http : string → http_result) (url_path : string → string).

Lemma asset_path_ne_failed base idx p :
  asset_path url_path base idx p ≠ failed_path url_path base.
Proof.
  unfold asset_path, failed_path, player_filename. intros H.
  apply path_join_inj in H; [| apply filename_not_rooted, catalog_slug_no_slash | done].
  pose proof (filename_has_underscore (catalog_slug url_path base)
                (get_date_slug (item_date p)) (sanitize_filename (item_series p))
                (sanitize_filename (item_speaker p))
                (sanitize_filename (item_title idx p)) (Py.splitext_ext (src p))) as Hu.
  rewrite H in Hu. discriminate.
Qed.

Lemma metadata_path_ne_failed base :
  metadata_path url_path base ≠ failed_path url_path base.
Proof.
  unfold metadata_path, failed_path. intros H. by apply path_join_inj in H.
Qed.

(** X7: when a file already is at the destination of an item, left by an
    earlier run or by another item with the same file name, the extractor
    sends no request and leaves every file but the metadata log as it is;
    the log grows by the item's record. *)
Theorem existing_asset_is_never_fetched_again base url idx c p content w :
  let slug := catalog_slug url_path base in
  let folder := catalog_folder url_path base in
  let log := metadata_path url_path base in
  activate c = Reveals p →
  fs w !! asset_path url_path base idx p = Some content →
  ∃ w',
    extract_item http slug folder url idx c w = (Ok tt, w')
    ∧ fs w' = <[log := default "" (fs w !! log)
                       +:+ metadata_block (player_filename slug idx p) idx p]> (fs w)
    ∧ fs w' !! asset_path url_path base idx p = Some content
    ∧ http_gets (trace w') = http_gets (trace w)
    ∧ trace w' = trace w ++ [Activate url idx;
                             Print ("✅ Already downloaded: "
                                    +:+ player_filename slug idx p)].
Proof.
  intros slug folder log Hc Hfile.
  unfold extract_item, try_except, extract_body, mbind, M_bind, path_exists.
  unfold emit at 1. simpl. rewrite Hc. simpl.
  fold slug folder.
  change (Py.path_join folder (player_filename slug idx p))
    with (asset_path url_path base idx p).
  rewrite Hfile. rewrite bool_decide_eq_true_2 by by eexists.
  unfold print, emit. simpl.
  eexists. split; [done|]. simpl. split; [done|]. split; [|split].
  - rewrite lookup_insert_ne; [done|].
    intros H. by apply (asset_path_ne_metadata url_path base idx p).
  - unfold http_gets. by rewrite <- !app_assoc, !omap_app, app_nil_r.
  - by rewrite <- !app_assoc.
Qed.

(** The run of the extractor on an item whose destination holds a file. *)
Lemma extract_item_skips base url idx c p content w :
  activate c = Reveals p →
  fs w !! asset_path url_path base idx p = Some content →
  extract_item http (catalog_slug url_path base) (catalog_folder url_path base) url idx c w
  = (Ok tt,
     World (<[metadata_path url_path base :=
                default "" (fs w !! metadata_path url_path base)
                +:+ metadata_block (player_filename (catalog_slug url_path base) idx p) idx p]>
              (fs w))
           (trace w ++ [Activate url idx;
                        Print ("✅ Already downloaded: "
                               +:+ player_filename (catalog_slug url_path base) idx p)])).
Proof.
  intros Hc Hfile.
  unfold extract_item, try_except, extract_body, mbind, M_bind, path_exists.
  unfold emit at 1. simpl. rewrite Hc. simpl.
  change (Py.path_join (catalog_folder url_path base)
            (player_filename (catalog_slug url_path base) idx p))
    with (asset_path url_path base idx p).
  rewrite Hfile. rewrite bool_decide_eq_true_2 by by eexists.
  unfold print, emit. simpl. by rewrite <- !app_assoc.
Qed.

(** X8: when fetching an item's asset raises, the error is caught like
    any other: the failure log gets the item's block, with its position
    counted from 1, the URL of the page and the error text, and the
    metadata log is left as it is.  When [session.get] itself raised, no
    file appears at the destination.  When the status was 200 and reading
    the body raised, the file had already been opened: an empty file is
    left at the destination, and a later run on the same item takes it for
    the asset, sends no request and leaves it empty. *)
Theorem connection_error_goes_to_failure_log base url idx c p e w :
  let slug := catalog_slug url_path base in
  let folder := catalog_folder url_path base in
  let filepath := asset_path url_path base idx p in
  let log := metadata_path url_path base in
  let failed := failed_path url_path base in
  let block :=
    "Item " +:+ Py.str_nat (idx + 1) +:+ " on " +:+ url +:+ nl +:+
    "Error: " +:+ e +:+ nl +:+
    "----------------------------------------" +:+ nl in
  let line := Print ("⚠️  Error processing item " +:+ Py.str_nat (idx + 1) +:+ ": " +:+ e) in
  activate c = Reveals p →
  fs w !! filepath = None →
  (http (src p) = ConnError e →
   ∃ w',
     extract_item http slug folder url idx c w = (Ok tt, w')
     ∧ fs w' = <[failed := default "" (fs w !! failed) +:+ block]> (fs w)
     ∧ fs w' !! filepath = None
     ∧ fs w' !! log = fs w !! log
     ∧ trace w' = trace w ++ [Activate url idx; HttpGet (src p); line])
  ∧ (http (src p) = ReadError 200 e →
     ∃ w' w'',
       extract_item http slug folder url idx c w = (Ok tt, w')
       ∧ fs w' = <[failed := default "" (fs w !! failed) +:+ block]>
                   (<[filepath := ""]> (fs w))
       ∧ fs w' !! filepath = Some ""
       ∧ fs w' !! log = fs w !! log
       ∧ trace w' = trace w ++ [Activate url idx; HttpGet (src p); line]
       ∧ extract_item http slug folder url idx c w' = (Ok tt, w'')
       ∧ fs w'' !! filepath = Some ""
       ∧ http_gets (trace w'') = http_gets (trace w')).
Proof.
  intros slug folder filepath log failed block line Hc Hfree.
  pose proof (asset_path_ne_failed base idx p) as Haf. fold filepath failed in Haf.
  pose proof (metadata_path_ne_failed base) as Hlf. fold log failed in Hlf.
  pose proof (asset_path_ne_metadata url_path base idx p) as Hal. fold filepath log in Hal.
  split; intros Hhttp.
  - unfold extract_item, try_except, extract_body, mbind, M_bind, path_exists.
    unfold emit at 1. simpl. rewrite Hc. simpl. fold slug folder.
    change (Py.path_join folder (player_filename slug idx p)) with filepath.
    rewrite Hfree. rewrite bool_decide_eq_false_2 by by intros [? ?].
    unfold download_mp3, mbind, M_bind, print, emit, raise. simpl.
    rewrite Hhttp. simpl.
    change (Py.path_join folder "failed.txt") with failed.
    change (failed_block url idx e) with block.
    eexists. split; [done|]. simpl. split; [done|]. split; [|split].
    + by rewrite lookup_insert_ne.
    + by rewrite lookup_insert_ne.
    + by rewrite <- !app_assoc.
  - assert (extract_item http slug folder url idx c w
            = (Ok tt, World (<[failed := default "" (fs w !! failed) +:+ block]>
                               (<[filepath := ""]> (fs w)))
                        (trace w ++ [Activate url idx; HttpGet (src p); line]))) as Hrun.
    { unfold extract_item, try_except, extract_body, mbind, M_bind, path_exists.
      unfold emit at 1. simpl. rewrite Hc. simpl. fold slug folder.
      change (Py.path_join folder (player_filename slug idx p)) with filepath.
      rewrite Hfree. rewrite bool_decide_eq_false_2 by by intros [? ?].
      unfold download_mp3, mbind, M_bind, print, emit, raise, write_file. simpl.
      rewrite Hhttp. simpl.
      change (Py.path_join folder "failed.txt") with failed.
      change (failed_block url idx e) with block.
      unfold append_file. simpl.
      rewrite (lookup_insert_ne _ filepath failed) by done.
      by rewrite <- !app_assoc. }
    eexists _, _. split; [exact Hrun|]. simpl. split; [done|].
    assert ((<[failed := default "" (fs w !! failed) +:+ block]>
               (<[filepath := ""]> (fs w))) !! filepath = Some "") as Hfile
      by by rewrite lookup_insert_ne, lookup_insert_eq by done.
    split; [done|].
    split; [by rewrite !lookup_insert_ne by done|].
    split; [done|]. split.
    + by apply (extract_item_skips base url idx c p "").
    + simpl. split.
      * by rewrite lookup_insert_ne by done.
      * unfold http_gets. by rewrite !omap_app, !app_nil_r.
Qed.

End ItemRuns.

Lemma existing_asset_is_never_fetched_again_witness :
  ∃ w',
    extract_item Demo.http_ok (catalog_slug Demo.url_path Demo.sermons)
      (catalog_folder Demo.url_path Demo.sermons) Demo.sermons 3 Demo.card_a
      (World {[asset_path Demo.url_path Demo.sermons 3 (Demo.talk "Grace") := "old"]} [])
    = (Ok tt, w')
    ∧ fs w' !! asset_path Demo.url_path Demo.sermons 3 (Demo.talk "Grace") = Some "old"
    ∧ http_gets (trace w') = [].
Proof.
  destruct (existing_asset_is_never_fetched_again Demo.http_ok Demo.url_path
              Demo.sermons Demo.sermons 3 Demo.card_a (Demo.talk "Grace") "old"
              (World {[asset_path Demo.url_path Demo.sermons 3 (Demo.talk "Grace") := "old"]} []))
    as (w' & Hrun & _ & Hfile & Hgets & _).
  - reflexivity.
  - apply lookup_singleton_eq.
  - exists w'. split; [exact Hrun|]. split; [exact Hfile|exact Hgets].
Defined.

Lemma connection_error_goes_to_failure_log_witness :
  ∃ w' w'',
    extract_item (λ _, ReadError 200 "Connection closed")
      (catalog_slug Demo.url_path Demo.sermons)
      (catalog_folder Demo.url_path Demo.sermons) Demo.sermons 0 Demo.card_a Demo.w0
    = (Ok tt, w')
    ∧ fs w'
      = <[failed_path Demo.url_path Demo.sermons :=
            "Item 1 on https://providencebiblefellowship.com/sermons" +:+ nl +:+
            "Error: Connection closed" +:+ nl +:+
            "----------------------------------------" +:+ nl]>
          (<[asset_path Demo.url_path Demo.sermons 0 (Demo.talk "Grace") := ""]> ∅)
    ∧ extract_item (λ _, ReadError 200 "Connection closed")
        (catalog_slug Demo.url_path Demo.sermons)
        (catalog_folder Demo.url_path Demo.sermons) Demo.sermons 0 Demo.card_a w'
      = (Ok tt, w'')
    ∧ http_gets (trace w'') = http_gets (trace w').
Proof.
  destruct (proj2 (connection_error_goes_to_failure_log
                     (λ _, ReadError 200 "Connection closed")
                     Demo.url_path Demo.sermons Demo.sermons 0 Demo.card_a
                     (Demo.talk "Grace") "Connection closed" Demo.w0 eq_refl eq_refl)
              eq_refl)
    as (w' & w'' & Hrun & Hfs & _ & _ & _ & Hagain & _ & Hgets).
  exists w', w''. split; [exact Hrun|]. split; [exact Hfs|]. split; [exact Hagain|exact Hgets].
Defined.


Section ItemRecords.

Context (http : string → http_result) (url_path : string → string).

(** X9: every card the extractor is started on leaves exactly one block in
    exactly one of the two logs of its catalog, whatever the page and the
    asset server answer.  When the body of the [try] completes, the
    metadata log grows by the item's record, six labelled lines and the
    rule, and the failure log is left as it is; when it raises [e], the
    failure log grows by the block with the position of the card counted
    from 1, the URL of the page and [e], and the metadata log is left as
    it is.  The extractor itself never raises and sends at most one
    request. *)
Theorem each_card_leaves_one_log_block base url idx c w :
  let slug := catalog_slug url_path base in
  let folder := catalog_folder url_path base in
  let log := metadata_path url_path base in
  let failed := failed_path url_path base in
  ∃ r wb w',
    extract_body http slug folder url idx c w = (r, wb)
    ∧ extract_item http slug folder url idx c w = (Ok tt, w')
    ∧ match r with
      | Ok _ =>
          ∃ p, activate c = Reveals p
               ∧ w' = wb
               ∧ fs w' !! log
                 = Some (default "" (fs w !! log) +:+
                         "Filename: " +:+ player_filename slug idx p +:+ nl +:+
                         "Title: "
                           +:+ default ("untitled-" +:+ Py.str_nat (idx + 1)) (title_el p)
                           +:+ nl +:+
                         "Date: " +:+ default "" (date_el p) +:+ nl +:+
                         "Speaker: " +:+ default "unknown-speaker" (speaker_el p) +:+ nl +:+
                         "Series: " +:+ default "unknown-series" (series_el p) +:+ nl +:+
                         "MP3 URL: " +:+ src p +:+ nl +:+
                         "----------------------------------------" +:+ nl)
               ∧ fs w' !! failed = fs w !! failed
      | Raise e =>
          fs w' !! failed
          = Some (default "" (fs w !! failed) +:+
                  "Item " +:+ Py.str_nat (idx + 1) +:+ " on " +:+ url +:+ nl +:+
                  "Error: " +:+ e +:+ nl +:+
                  "----------------------------------------" +:+ nl)
          ∧ fs w' !! log = fs wb !! log
          ∧ fs wb !! log = fs w !! log
      end
    ∧ length (http_gets (trace w')) ≤ S (length (http_gets (trace w))).
Proof.
  intros slug folder log failed.
  pose proof (metadata_path_ne_failed url_path base) as Hlf. fold log failed in Hlf.
  destruct (extract_body http slug folder url idx c w) as [r wb] eqn:Hbody.
  assert (match r with
          | Ok _ =>
              ∃ p, activate c = Reveals p
                   ∧ fs wb !! log
                     = Some (default "" (fs w !! log)
                             +:+ item_record (player_filename slug idx p) idx p)
                   ∧ fs wb !! failed = fs w !! failed
          | Raise e => fs wb !! failed = fs w !! failed ∧ fs wb !! log = fs w !! log
          end
          ∧ length (http_gets (trace wb)) ≤ S (length (http_gets (trace w)))) as [Hb Hg].
  { revert Hbody.
    unfold extract_body, mbind, M_bind, path_exists. unfold emit at 1. simpl.
    change (Py.path_join folder "metadata.txt") with log.
    destruct (activate c) as [e|p] eqn:Hc; simpl.
    { intros [= <- <-]. simpl. split; [done|].
      unfold http_gets. rewrite !omap_app. simpl. rewrite app_nil_r. lia. }
    change (Py.path_join folder (player_filename slug idx p))
      with (asset_path url_path base idx p).
    pose proof (asset_path_ne_metadata url_path base idx p) as Hal. fold log in Hal.
    pose proof (asset_path_ne_failed url_path base idx p) as Haf. fold failed in Haf.
    rewrite metadata_block_text.
    case_bool_decide; simpl.
    { intros [= <- <-]. simpl. split.
      - exists p. by rewrite lookup_insert_eq, lookup_insert_ne by done.
      - unfold http_gets. rewrite <- !app_assoc, !omap_app. simpl.
        rewrite app_nil_r. lia. }
    unfold download_mp3, mbind, M_bind, print, emit, write_file, raise. simpl.
    destruct (http (src p)) as [e|status body|status e]; simpl.
    { intros [= <- <-]. simpl. split; [done|].
      unfold http_gets. rewrite <- !app_assoc, !omap_app. simpl.
      rewrite length_app. simpl. lia. }
    - destruct (status =? 200); simpl; intros [= <- <-]; simpl; (split;
        [exists p; rewrite lookup_insert_eq, ?(lookup_insert_ne _ log failed) by done;
         by rewrite ?(lookup_insert_ne (fs w) (asset_path url_path base idx p)) by done
        |unfold http_gets; rewrite <- !app_assoc, !omap_app; simpl;
         rewrite length_app; simpl; lia]).
    - destruct (status =? 200); simpl; intros [= <- <-]; simpl.
      + split; [by rewrite !lookup_insert_ne by done|].
        unfold http_gets. rewrite <- !app_assoc, !omap_app. simpl.
        rewrite length_app. simpl. lia.
      + split.
        * exists p. by rewrite lookup_insert_eq, lookup_insert_ne by done.
        * unfold http_gets. rewrite <- !app_assoc, !omap_app. simpl.
          rewrite length_app. simpl. lia. }
  unfold extract_item, try_except. rewrite Hbody.
  destruct r as [[]|e].
  - exists (Ok tt), wb, wb. split; [done|]. split; [done|]. split; [|done].
    destruct Hb as (p & Hc & Hlog & Hfailed). exists p.
    split; [done|]. split; [done|]. split; [|done].
    rewrite Hlog. reflexivity.
  - destruct Hb as [Hfailed Hlog].
    unfold mbind, M_bind, print, emit, append_file. simpl.
    change (Py.path_join folder "failed.txt") with failed.
    eexists (Raise e), wb, _. split; [done|]. split; [done|]. simpl. split.
    + rewrite lookup_insert_eq, lookup_insert_ne by done. rewrite Hfailed.
      split; [|done]. reflexivity.
    + unfold http_gets in *. rewrite omap_app. simpl. by rewrite app_nil_r.
Qed.

End ItemRecords.

(** ** The loop over the pages *)

Lemma str_nat_go_digits fuel : ∀ n acc,
  n < fuel → nat_of_digits 0 (Py.str_nat_go fuel n acc) = nat_of_digits n acc.
Proof.
  induction fuel as [|fuel IH]; intros n acc Hn; [lia|].
  assert (n mod 10 < 10) as Hmod by (apply Nat.mod_upper_bound; lia).
  pose proof (Nat.div_mod_eq n 10) as Hdm.
  change (Py.str_nat_go (S fuel) n acc)
    with (if n / 10 =? 0 then String (Py.digit_char (n mod 10)) acc
          else Py.str_nat_go fuel (n / 10) (String (Py.digit_char (n mod 10)) acc)).
  destruct (n / 10 =? 0) eqn:Hdiv.
  - apply Nat.eqb_eq in Hdiv.
    change (nat_of_digits 0 (String ?c acc))
      with (nat_of_digits (10 * 0 + Strptime.digit_val c) acc).
    rewrite digit_val_char by done. f_equal. lia.
  - apply Nat.eqb_neq in Hdiv. rewrite IH by lia.
    change (nat_of_digits (n / 10) (String ?c acc))
      with (nat_of_digits (10 * (n / 10) + Strptime.digit_val c) acc).
    rewrite digit_val_char by done. f_equal. lia.
Qed.

Lemma str_nat_inj n m : Py.str_nat n = Py.str_nat m → n = m.
Proof.
  intros H. apply (f_equal (nat_of_digits 0)) in H.
  unfold Py.str_nat in H. by rewrite !str_nat_go_digits in H by lia.
Qed.

Lemma page_url_inj base p q : 1 ≤ p → 1 ≤ q → page_url base p = page_url base q → p = q.
Proof.
  unfold page_url. intros Hp Hq.
  destruct (1 <? p) eqn:Hp1, (1 <? q) eqn:Hq1;
    try apply Nat.ltb_lt in Hp1; try apply Nat.ltb_lt in Hq1;
    try apply Nat.ltb_ge in Hp1; try apply Nat.ltb_ge in Hq1.
  - intros H. do 2 apply String.app_inj in H. by apply str_nat_inj.
  - intros H. rewrite <- (sapp_nil_r base) in H at 2. by apply String.app_inj in H.
  - intros H. rewrite <- (sapp_nil_r base) in H at 1. by apply String.app_inj in H.
  - lia.
Qed.

Section Pages.

Context (site : string → page_load) (http : string → http_result).

(** X10: whatever the site, a crawl that ends, by a repeat or by an error,
    has navigated to consecutive pages, from the page it started on (the
    first, in [scrape_media_items]), in increasing order and to nothing
    else; the URLs of these pages are pairwise distinct, so no page is
    requested twice. *)
Theorem crawl_navigates_consecutive_pages fuel slug folder base : ∀ p seen w r w',
  1 ≤ p →
  crawl site http fuel slug folder base p seen w = Some (r, w') →
  ∃ n, 1 ≤ n ≤ fuel
       ∧ gotos (trace w') = gotos (trace w) ++ map (page_url base) (seq p n)
       ∧ NoDup (map (page_url base) (seq p n)).
Proof.
  assert (∀ p n, 1 ≤ p → NoDup (map (page_url base) (seq p n))) as Hnodup.
  { intros p n Hp. apply NoDup_fmap_2_strong; [|apply NoDup_seq].
    intros a b Ha%elem_of_seq Hb%elem_of_seq. apply page_url_inj; lia. }
  induction fuel as [|fuel IH]; intros p seen w r w' Hp H; [done|].
  simpl in H. destruct (site (page_url base p)) as [e|cards].
  { simplify_eq. exists 1. split; [lia|]. split; [|by apply Hnodup].
    simpl. by rewrite gotos_app. }
  destruct (is_repeat seen (media_ids cards)).
  { unfold print, emit in H. simplify_eq/=. exists 1. split; [lia|].
    split; [|by apply (Hnodup p 1)]. rewrite !gotos_app. simpl. by rewrite !app_nil_r. }
  match type of H with
  | context [extract_items _ _ _ _ _ _ ?w2] =>
      destruct (extract_items_ok http slug folder (page_url base p) cards 0 w2)
        as (w3 & H3 & Hg3 & _)
  end.
  rewrite H3 in H. apply IH in H as (n & Hn & Hg & _); [|lia].
  exists (S n). split; [lia|]. split; [|by apply Hnodup].
  rewrite Hg. simpl. rewrite gotos_app, Hg3. simpl.
  rewrite !gotos_app. simpl. rewrite !app_nil_r. by rewrite <- app_assoc.
Qed.

(** X11: the identifier of a card without [data-id], or with an empty
    one, is made of its position alone.  When page [p] and the page after
    it each have such a card at the same position, the second page is
    taken for a repeat whatever else it shows: the loop ends there and the
    extractor is started on none of its cards. *)
Theorem positional_ids_end_pagination
    fuel slug folder base p seen cards1 cards2 i c1 c2 w :
  site (page_url base p) = Loaded cards1 →
  is_repeat seen (media_ids cards1) = false →
  site (page_url base (S p)) = Loaded cards2 →
  cards1 !! i = Some c1 → cards2 !! i = Some c2 →
  default "" (data_id c1) = "" → default "" (data_id c2) = "" →
  ∃ w' t,
    crawl site http (S (S fuel)) slug folder base p seen w = Some (Ok tt, w')
    ∧ trace w' = t ++ [Goto (page_url base (S p));
                       Print (visiting_line (page_url base (S p)) (length cards2));
                       Print (stop_line (S p))]
    ∧ activations t
      = activations (trace w) ++ imap (λ k _, (page_url base p, k)) cards1.
Proof.
  intros Hsite1 Hfresh Hsite2 Hc1 Hc2 Hid1 Hid2.
  destruct (crawl_step_fresh site http (S fuel) slug folder base p seen cards1 w
              Hsite1 Hfresh) as (w1 & Hstep & _ & Ha).
  assert (∀ cards c, cards !! i = Some c → default "" (data_id c) = "" →
                     "idx-" +:+ Py.str_nat i ∈ media_ids cards) as Hpos.
  { intros cards c Hlook Hid. apply list_elem_of_lookup. exists i.
    unfold media_ids. rewrite list_lookup_imap, Hlook. simpl.
    unfold media_id, or_default. by rewrite Hid. }
  assert (is_repeat (seen ∪ list_to_set (media_ids cards1)) (media_ids cards2) = true)
    as Hrep.
  { apply is_repeat_true. exists ("idx-" +:+ Py.str_nat i). split; [by eapply Hpos|].
    apply elem_of_union. right. apply elem_of_list_to_set. by eapply Hpos. }
  rewrite Hstep. simpl. rewrite Hsite2, Hrep. unfold print, emit. simpl.
  eexists _, (trace w1). split; [done|]. simpl. split; [|done].
  by rewrite <- !app_assoc.
Qed.

End Pages.

Lemma crawl_navigates_consecutive_pages_witness :
  match crawl Demo.site Demo.http_ok 5 "sermons" "downloads/sermons" Demo.sermons 1 ∅
          Demo.w0 with
  | Some (r, w') =>
      ∃ n, 1 ≤ n ≤ 5
           ∧ gotos (trace w') = gotos (trace Demo.w0) ++ map (page_url Demo.sermons) (seq 1 n)
           ∧ NoDup (map (page_url Demo.sermons) (seq 1 n))
  | None => False
  end.
Proof.
  destruct (crawl Demo.site Demo.http_ok 5 "sermons" "downloads/sermons" Demo.sermons 1 ∅
              Demo.w0) as [[r w']|] eqn:H.
  - apply (crawl_navigates_consecutive_pages Demo.site Demo.http_ok 5 "sermons"
             "downloads/sermons" Demo.sermons 1 ∅ Demo.w0 r w'); [lia|exact H].
  - vm_compute in H. discriminate H.
Defined.

Lemma positional_ids_end_pagination_witness :
  ∃ w' t,
    crawl (λ url, Loaded [Card None (Fails Demo.timeout)]) Demo.http_ok 2 "sermons"
      "downloads/sermons" Demo.sermons 1 ∅ Demo.w0 = Some (Ok tt, w')
    ∧ trace w' = t ++ [Goto (page_url Demo.sermons 2);
                       Print (visiting_line (page_url Demo.sermons 2) 1);
                       Print (stop_line 2)]
    ∧ activations t = [(Demo.sermons, 0)].
Proof.
  apply (positional_ids_end_pagination (λ url, Loaded [Card None (Fails Demo.timeout)])
           Demo.http_ok 0 "sermons" "downloads/sermons" Demo.sermons 1 ∅
           [Card None (Fails Demo.timeout)] [Card None (Fails Demo.timeout)] 0
           (Card None (Fails Demo.timeout)) (Card None (Fails Demo.timeout)) Demo.w0);
    reflexivity.
Defined.

(** ** What a run leaves on disk *)

Lemma fs_grows_refl w : fs_grows w w.
Proof. intros path content H. exists "". by rewrite sapp_nil_r. Qed.

Lemma fs_grows_trans w1 w2 w3 : fs_grows w1 w2 → fs_grows w2 w3 → fs_grows w1 w3.
Proof.
  intros H12 H23 path content H.
  destruct (H12 _ _ H) as [m1 H1]. destruct (H23 _ _ H1) as [m2 H2].
  exists (m1 +:+ m2). by rewrite <- sapp_assoc.
Qed.

Lemma fs_grows_trace w t : fs_grows w (World (fs w) t).
Proof. intros path content H. exists "". by rewrite sapp_nil_r. Qed.

Lemma fs_grows_append w path data t :
  fs_grows w (World (<[path := default "" (fs w !! path) +:+ data]> (fs w)) t).
Proof.
  intros path' content H. simpl. destruct (decide (path = path')) as [->|Hne].
  - rewrite lookup_insert_eq, H. by exists data.
  - rewrite lookup_insert_ne by done. exists "". by rewrite sapp_nil_r.
Qed.

Lemma fs_grows_write_new w path data t :
  fs w !! path = None → fs_grows w (World (<[path := data]> (fs w)) t).
Proof.
  intros Hnew path' content H. simpl. destruct (decide (path = path')) as [->|Hne].
  - congruence.
  - rewrite lookup_insert_ne by done. exists "". by rewrite sapp_nil_r.
Qed.

Section Disk.

Context (site : string → page_load) (http : string → http_result)
        (url_path : string → string).

Lemma extract_item_grows slug folder url idx c w :
  fs_grows w (extract_item http slug folder url idx c w).2.
Proof.
  unfold extract_item, try_except, extract_body, mbind, M_bind, path_exists.
  unfold emit at 1. simpl.
  destruct (activate c) as [e|p]; simpl; [apply fs_grows_append|].
  case_bool_decide as Hex; simpl; [apply fs_grows_append|].
  unfold download_mp3, mbind, M_bind, print, emit, write_file, raise. simpl.
  set (path := Py.path_join folder (player_filename slug idx p)) in *.
  assert (fs w !! path = None) as Hnew.
  { destruct (fs w !! path) eqn:Hl; [|done]. exfalso. apply Hex. by eexists. }
  destruct (http (src p)) as [e|status body|status e]; simpl; [apply fs_grows_append| |].
  - destruct (status =? 200); simpl; [|apply fs_grows_append].
    apply (fs_grows_trans w (World (<[path := body]> (fs w)) [])).
    + by apply fs_grows_write_new.
    + exact (fs_grows_append (World (<[path := body]> (fs w)) [])
               (Py.path_join folder "metadata.txt")
               (metadata_block (player_filename slug idx p) idx p) _).
  - destruct (status =? 200); simpl; [|apply fs_grows_append].
    apply (fs_grows_trans w (World (<[path := ""]> (fs w)) [])).
    + by apply fs_grows_write_new.
    + exact (fs_grows_append (World (<[path := ""]> (fs w)) [])
               (Py.path_join folder "failed.txt")
               (failed_block url idx e) _).
Qed.

Lemma extract_items_grows slug folder url cards : ∀ idx w,
  fs_grows w (extract_items http slug folder url idx cards w).2.
Proof.
  induction cards as [|c cards IH]; intros idx w; [apply fs_grows_refl|].
  destruct (extract_item_ok http slug folder url idx c w) as (w1 & t & H1 & _).
  pose proof (extract_item_grows slug folder url idx c w) as Hg. rewrite H1 in Hg.
  simpl. unfold mbind, M_bind. rewrite H1.
  eapply fs_grows_trans; [exact Hg|apply IH].
Qed.

Lemma crawl_grows fuel slug folder base : ∀ p seen w r w',
  crawl site http fuel slug folder base p seen w = Some (r, w') → fs_grows w w'.
Proof.
  induction fuel as [|fuel IH]; intros p seen w r w' H; [done|].
  simpl in H. destruct (site (page_url base p)) as [e|cards].
  { simplify_eq. apply fs_grows_trace. }
  destruct (is_repeat seen (media_ids cards)).
  { unfold print, emit in H. simplify_eq/=. apply fs_grows_trace. }
  match type of H with
  | context [extract_items _ _ _ _ _ _ ?w2] =>
      pose proof (extract_items_grows slug folder (page_url base p) cards 0 w2) as Hg;
      destruct (extract_items_ok http slug folder (page_url base p) cards 0 w2)
        as (w3 & H3 & _)
  end.
  rewrite H3 in H, Hg. apply IH in H.
  eapply fs_grows_trans; [|eapply fs_grows_trans; [exact Hg|]].
  - apply fs_grows_trace.
  - eapply fs_grows_trans; [|exact H]. apply fs_grows_trace.
Qed.

Lemma main_loop_grows fuel subpages : ∀ w w',
  main_loop site http url_path fuel subpages w = Some w' → fs_grows w w'.
Proof.
  induction subpages as [|u subpages IH]; intros w w' H.
  { simplify_eq/=. apply fs_grows_refl. }
  simpl in H.
  destruct (scrape_media_items site http url_path fuel u w) as [[r w1]|] eqn:Hu; [|done].
  apply crawl_grows in Hu.
  destruct r as [[]|e]; apply IH in H.
  - by eapply fs_grows_trans.
  - eapply fs_grows_trans; [exact Hu|]. eapply fs_grows_trans; [|exact H].
    apply fs_grows_trace.
Qed.

(** X12: a run never deletes a file and never changes what a file
    already holds.  After the crawl of a catalog, and after the whole
    run, every file that was on disk before is still there, and its old
    content is the beginning of its new content: logs are only appended
    to, assets are only written where no file was. *)
Theorem run_only_adds_to_disk fuel :
  (∀ base w r w',
     scrape_media_items site http url_path fuel base w = Some (r, w') → fs_grows w w')
  ∧ (∀ entry w r w',
       main site http url_path entry fuel w = Some (r, w') → fs_grows w w').
Proof.
  split.
  - intros base w r w' H. by apply crawl_grows in H.
  - intros entry w r w' H. unfold main, get_subpages, mbind, M_bind, emit, raise in H.
    simpl in H. destruct entry as [links|e]; simpl in H.
    + destruct (main_loop _ _ _ _ _ _) as [w2|] eqn:Hloop; [|done].
      simplify_eq. apply main_loop_grows in Hloop.
      eapply fs_grows_trans; [|exact Hloop]. apply fs_grows_trace.
    + simplify_eq. apply fs_grows_trace.
Qed.

(** The navigations of a crawl that ends. *)
Lemma crawl_gotos fuel slug folder base : ∀ p seen w r w',
  crawl site http fuel slug folder base p seen w = Some (r, w') →
  ∃ n, n < fuel
       ∧ gotos (trace w') = gotos (trace w) ++ map (page_url base) (seq p (S n)).
Proof.
  induction fuel as [|fuel IH]; intros p seen w r w' H; [done|].
  simpl in H. destruct (site (page_url base p)) as [e|cards].
  { simplify_eq. exists 0. split; [lia|]. simpl. by rewrite gotos_app. }
  destruct (is_repeat seen (media_ids cards)).
  { unfold print, emit in H. simplify_eq/=. exists 0. split; [lia|].
    rewrite !gotos_app. simpl. by rewrite !app_nil_r. }
  match type of H with
  | context [extract_items _ _ _ _ _ _ ?w2] =>
      destruct (extract_items_ok http slug folder (page_url base p) cards 0 w2)
        as (w3 & H3 & Hg3 & _)
  end.
  rewrite H3 in H. apply IH in H as (n & Hn & Hg).
  exists (S n). split; [lia|].
  rewrite Hg. simpl. rewrite gotos_app, Hg3. simpl.
  rewrite !gotos_app. simpl. rewrite !app_nil_r. by rewrite <- app_assoc.
Qed.

Lemma pages_of_page_url u n : map (page_url u) (seq 1 (S n)) = pages_of u n.
Proof.
  unfold pages_of. simpl. f_equal. apply map_ext_in. intros k Hk%in_seq.
  unfold page_url. destruct (1 <? k) eqn:Hlt; [done|]. apply Nat.ltb_ge in Hlt. lia.
Qed.

(** The navigations of the crawl of a catalog are its pages. *)
Lemma scrape_gotos fuel base w r w' :
  scrape_media_items site http url_path fuel base w = Some (r, w') →
  ∃ n, n < fuel ∧ gotos (trace w') = gotos (trace w) ++ pages_of base n.
Proof.
  intros H. apply crawl_gotos in H as (n & Hn & Hg).
  exists n. split; [done|]. by rewrite Hg, pages_of_page_url.
Qed.

Lemma main_loop_gotos fuel subpages : ∀ w w',
  main_loop site http url_path fuel subpages w = Some w' →
  ∃ counts, length counts = length subpages
            ∧ Forall (λ n, n < fuel) counts
            ∧ gotos (trace w')
              = gotos (trace w) ++ concat (zip_with pages_of subpages counts).
Proof.
  induction subpages as [|u subpages IH]; intros w w' H.
  { simplify_eq/=. exists []. split; [done|]. split; [done|]. by rewrite app_nil_r. }
  simpl in H.
  destruct (scrape_media_items site http url_path fuel u w) as [[r w1]|] eqn:Hu; [|done].
  apply scrape_gotos in Hu as (n & Hn & Hpages).
  destruct r as [[]|e]; apply IH in H as (counts & Hlen & Hall & Hg);
    exists (n :: counts); (split; [simpl; lia|]); (split; [by constructor|]);
    rewrite Hg; simpl; rewrite ?gotos_app, Hpages; simpl;
    rewrite ?app_nil_r, <- ?app_assoc; done.
Qed.

(** X13: a run that ends has navigated to the entry page first and then
    through the catalogs one after the other in the sorted order of the
    discoverer, and to nothing else.  Its navigations are the entry URL
    followed, catalog by catalog, by the pages of that catalog: its URL,
    then the URL with [?page=2], [?page=3] and so on up to the page at
    which its crawl ended, fewer pages than the bound on the loop. *)
Theorem run_crawls_catalogs_in_sorted_order fuel links w r w' :
  main site http url_path (Ok links) fuel w = Some (r, w') →
  r = Ok tt
  ∧ ∃ counts,
      length counts = length (subpages_of links)
      ∧ Forall (λ n, n < fuel) counts
      ∧ gotos (trace w')
        = gotos (trace w)
          ++ START_URL
             :: concat (zip_with
                          (λ u n, u :: map (λ k, u +:+ "?page=" +:+ Py.str_nat k) (seq 2 n))
                          (subpages_of links) counts).
Proof.
  intros H. unfold main, get_subpages, mbind, M_bind, emit in H. simpl in H.
  destruct (main_loop _ _ _ _ _ _) as [w2|] eqn:Hloop; [|done].
  simplify_eq. split; [done|].
  apply main_loop_gotos in Hloop as (counts & Hlen & Hall & Hg).
  exists counts. split; [done|]. split; [done|]. rewrite Hg. simpl.
  rewrite !gotos_app. simpl. by rewrite app_nil_r, <- app_assoc.
Qed.

(** X14: the loop over the pages has no bound of its own.  On a site
    whose pages all load and never show an identifier of an earlier page,
    the crawl of a catalog does not end, however many turns it is given. *)
Theorem crawl_without_repeat_never_ends base w :
  (∀ q, 1 ≤ q → ∃ cards, site (page_url base q) = Loaded cards) →
  (∀ q, 1 ≤ q → ¬ repeats_at site base q) →
  ∀ fuel, scrape_media_items site http url_path fuel base w = None.
Proof.
  intros Hload Hfresh fuel.
  destruct (crawl_through site http (catalog_slug url_path base)
              (catalog_folder url_path base) base fuel 1 0 w ltac:(lia))
    as (w' & H & _).
  { intros q Hq. apply Hload. lia. }
  { intros q Hq. apply Hfresh. lia. }
  unfold scrape_media_items. change (∅ : gset string) with (seen_before site base 1).
  rewrite Nat.add_0_r in H. by rewrite H.
Qed.

End Disk.


Lemma endless_site_ids q :
  page_ids endless_site Demo.sermons q = [page_url Demo.sermons q].
Proof.
  unfold page_ids, page_cards, endless_site, media_ids, media_id, or_default. simpl.
  rewrite bool_decide_eq_false_2; [done|].
  unfold page_url. by destruct (1 <? q).
Qed.

(** On the endless site no page shows an identifier of an earlier page. *)
Lemma endless_site_never_repeats q :
  1 ≤ q → ¬ repeats_at endless_site Demo.sermons q.
Proof.
  intros Hq (mid & Hmid & Hseen). rewrite endless_site_ids in Hmid.
  apply list_elem_of_singleton in Hmid as ->.
  unfold seen_before in Hseen. apply elem_of_list_to_set in Hseen.
  apply list_elem_of_In, in_flat_map in Hseen as (p & Hp & Hin).
  apply in_seq in Hp. rewrite endless_site_ids in Hin.
  destruct Hin as [Heq|[]]. apply page_url_inj in Heq; lia.
Qed.

Lemma crawl_without_repeat_never_ends_witness :
  scrape_media_items endless_site Demo.http_ok Demo.url_path 7 Demo.sermons Demo.w0 = None.
Proof.
  apply (crawl_without_repeat_never_ends endless_site Demo.http_ok Demo.url_path
           Demo.sermons Demo.w0).
  - intros q Hq. eexists. reflexivity.
  - apply endless_site_never_repeats.
Defined.

Lemma run_only_adds_to_disk_witness :
  match scrape_media_items Demo.site Demo.http_ok Demo.url_path 5 Demo.sermons
          (World {[metadata_path Demo.url_path Demo.sermons := "kept"]} []) with
  | Some (r, w') =>
      fs_grows (World {[metadata_path Demo.url_path Demo.sermons := "kept"]} []) w'
  | None => False
  end.
Proof.
  destruct (scrape_media_items Demo.site Demo.http_ok Demo.url_path 5 Demo.sermons
              (World {[metadata_path Demo.url_path Demo.sermons := "kept"]} []))
    as [[r w']|] eqn:H.
  - exact (proj1 (run_only_adds_to_disk Demo.site Demo.http_ok Demo.url_path 5)
             Demo.sermons _ r w' H).
  - vm_compute in H. discriminate H.
Defined.

Lemma run_crawls_catalogs_in_sorted_order_witness :
  match main Demo.site Demo.http_ok Demo.url_path
          (Ok [Demo.sermons; START_URL; Demo.events]) 5 Demo.w0 with
  | Some (r, w') =>
      r = Ok tt
      ∧ ∃ counts,
          length counts = 2
          ∧ Forall (λ n, n < 5) counts
          ∧ gotos (trace w')
            = START_URL
              :: concat (zip_with
                           (λ u n, u :: map (λ k, u +:+ "?page=" +:+ Py.str_nat k) (seq 2 n))
                           [Demo.events; Demo.sermons] counts)
  | None => False
  end.
Proof.
  destruct (main Demo.site Demo.http_ok Demo.url_path
              (Ok [Demo.sermons; START_URL; Demo.events]) 5 Demo.w0)
    as [[r w']|] eqn:H.
  - exact (run_crawls_catalogs_in_sorted_order Demo.site Demo.http_ok Demo.url_path 5
             [Demo.sermons; START_URL; Demo.events] Demo.w0 r w' H).
  - vm_compute in H. discriminate H.
Defined.

(** The run on the small site, navigation by navigation. *)
Example demo_run_navigations :
  ∃ w', main Demo.site Demo.http_ok Demo.url_path
          (Ok [Demo.sermons; START_URL; Demo.events]) 5 Demo.w0 = Some (Ok tt, w')
        ∧ gotos (trace w')
          = ["https://providencebiblefellowship.com/seminars";
             "https://providencebiblefellowship.com/events";
             "https://providencebiblefellowship.com/sermons";
             "https://providencebiblefellowship.com/sermons?page=2"].
Proof. eexists. split; [vm_compute; reflexivity|reflexivity]. Qed.

(** ** The folder of a catalog *)

Lemma startswith_app d a b : Py.startswith (d +:+ a) (d +:+ b) = Py.startswith a b.
Proof.
  induction d as [|c d IH]; [done|]. rewrite !sapp_cons. simpl.
  by rewrite bool_decide_eq_true_2, IH.
Qed.

Lemma startswith_self d b : Py.startswith d (d +:+ b) = true.
Proof.
  rewrite <- (sapp_nil_r d) at 1. rewrite startswith_app. by destruct b.
Qed.

Lemma startswith_split p : ∀ t, Py.startswith p t = true → ∃ t', t = p +:+ t'.
Proof.
  induction p as [|a p IH]; intros t H; [by exists t|].
  destruct t as [|b t]; [done|]. simpl in H.
  apply andb_prop in H as [Hab%bool_decide_eq_true H]. subst.
  destruct (IH t H) as [t' ->]. by exists t'.
Qed.

Lemma drop_length_app d b : Py.drop (String.length d) (d +:+ b) = b.
Proof. induction d as [|c d IH]; [by destruct b|]. rewrite sapp_cons. simpl. exact IH. Qed.

Lemma in_dir_app dir name : has_char "/" name = false → in_dir dir (dir +:+ name) = true.
Proof.
  intros H. unfold in_dir. by rewrite startswith_self, drop_length_app, H.
Qed.

(** Two texts without a slash that agree up to their first slash are equal. *)
Lemma first_slash_inj a : ∀ b ta tb,
  has_char "/" a = false → has_char "/" b = false →
  a +:+ "/" +:+ ta = b +:+ "/" +:+ tb → a = b.
Proof.
  induction a as [|x a IH]; intros [|y b] ta tb Ha Hb H; try done.
  - simpl in Hb. apply orb_false_elim in Hb as [Hy _].
    rewrite sapp_cons in H. injection H as <- _. done.
  - simpl in Ha. apply orb_false_elim in Ha as [Hx _].
    rewrite sapp_cons in H. injection H as -> _. done.
  - simpl in Ha, Hb. apply orb_false_elim in Ha as [_ Ha].
    apply orb_false_elim in Hb as [_ Hb].
    rewrite !sapp_cons in H. injection H as -> H. f_equal. by eapply IH.
Qed.

Lemma touches_only_refl dir w : touches_only dir w w.
Proof. by intros path _. Qed.

Lemma touches_only_trans dir w1 w2 w3 :
  touches_only dir w1 w2 → touches_only dir w2 w3 → touches_only dir w1 w3.
Proof. intros H12 H23 path Hout. by rewrite H23, H12. Qed.

Lemma touches_only_trace dir w t : touches_only dir w (World (fs w) t).
Proof. by intros path _. Qed.

Lemma touches_only_insert dir w path data t :
  in_dir dir path = true → touches_only dir w (World (<[path := data]> (fs w)) t).
Proof.
  intros Hin path' Hout. simpl. rewrite lookup_insert_ne; [done|]. congruence.
Qed.

Section Folder.

Context (site : string → page_load) (http : string → http_result)
        (url_path : string → string).

(** A name without a slash, joined to the folder of a catalog, is that
    name in the directory of the catalog. *)
Lemma path_join_catalog_dir base name :
  has_char "/" name = false →
  Py.path_join (catalog_folder url_path base) name = catalog_dir url_path base +:+ name.
Proof.
  intros Hname. unfold catalog_folder, catalog_dir.
  pose proof (catalog_slug_no_slash url_path base) as Hslug.
  assert (Py.startswith "/" name = false) as Hroot.
  { destruct name as [|c f]; [done|]. simpl in *.
    apply orb_false_elim in Hname as [Hc _]. unfold Py.is_char in Hc.
    apply bool_decide_eq_false in Hc. rewrite andb_true_r.
    apply bool_decide_eq_false. congruence. }
  destruct (catalog_slug url_path base) as [|c slug'] eqn:Hs.
  - unfold Py.path_join at 2. simpl. unfold Py.path_join. rewrite Hroot. by simpl.
  - rewrite bool_decide_eq_false_2 by done.
    assert (Py.path_join "downloads" (String c slug') = "downloads/" +:+ String c slug') as ->.
    { unfold Py.path_join. simpl in Hslug. apply orb_false_elim in Hslug as [Hc _].
      unfold Py.is_char in Hc. apply bool_decide_eq_false in Hc. simpl.
      rewrite bool_decide_eq_false_2 by congruence. by simpl. }
    unfold Py.path_join. rewrite Hroot.
    rewrite bool_decide_eq_false_2 by done.
    rewrite (endswith_char_app "/" "downloads/" c slug').
    rewrite (endswith_no_char "/" (String c slug') Hslug). simpl.
    by rewrite !sapp_assoc.
Qed.

Lemma extract_item_touches base url idx c w :
  touches_only (catalog_dir url_path base) w
    (extract_item http (catalog_slug url_path base) (catalog_folder url_path base)
       url idx c w).2.
Proof.
  assert (∀ name w0 data t, has_char "/" name = false →
            touches_only (catalog_dir url_path base) w0
              (World (<[Py.path_join (catalog_folder url_path base) name := data]> (fs w0)) t))
    as Hins.
  { intros name w0 data t Hname. apply touches_only_insert.
    rewrite path_join_catalog_dir by done. by apply in_dir_app. }
  unfold extract_item, try_except, extract_body, mbind, M_bind, path_exists.
  unfold emit at 1. simpl.
  destruct (activate c) as [e|p]; simpl; [by apply Hins|].
  case_bool_decide as Hex; simpl; [by apply Hins|].
  unfold download_mp3, mbind, M_bind, print, emit, write_file, raise. simpl.
  set (path := Py.path_join _ (player_filename _ idx p)) in *.
  destruct (http (src p)) as [e|status body|status e]; simpl; [by apply Hins| |].
  - destruct (status =? 200); simpl; [|by apply Hins].
    apply (touches_only_trans _ w (World (<[path := body]> (fs w)) [])).
    + apply Hins, player_filename_no_slash.
    + exact (Hins "metadata.txt" (World (<[path := body]> (fs w)) []) _ _ eq_refl).
  - destruct (status =? 200); simpl; [|by apply Hins].
    apply (touches_only_trans _ w (World (<[path := ""]> (fs w)) [])).
    + apply Hins, player_filename_no_slash.
    + exact (Hins "failed.txt" (World (<[path := ""]> (fs w)) []) _ _ eq_refl).
Qed.

Lemma extract_items_touches base url cards : ∀ idx w,
  touches_only (catalog_dir url_path base) w
    (extract_items http (catalog_slug url_path base) (catalog_folder url_path base)
       url idx cards w).2.
Proof.
  induction cards as [|c cards IH]; intros idx w; [apply touches_only_refl|].
  destruct (extract_item_ok http (catalog_slug url_path base)
              (catalog_folder url_path base) url idx c w) as (w1 & t & H1 & _).
  pose proof (extract_item_touches base url idx c w) as Hg. rewrite H1 in Hg.
  simpl. unfold mbind, M_bind. rewrite H1.
  eapply touches_only_trans; [exact Hg|apply IH].
Qed.

Lemma crawl_touches fuel base : ∀ p seen w r w',
  crawl site http fuel (catalog_slug url_path base) (catalog_folder url_path base)
    base p seen w = Some (r, w') →
  touches_only (catalog_dir url_path base) w w'.
Proof.
  induction fuel as [|fuel IH]; intros p seen w r w' H; [done|].
  simpl in H. destruct (site (page_url base p)) as [e|cards].
  { simplify_eq. apply touches_only_trace. }
  destruct (is_repeat seen (media_ids cards)).
  { unfold print, emit in H. simplify_eq/=. apply touches_only_trace. }
  match type of H with
  | context [extract_items _ _ _ _ _ _ ?w2] =>
      pose proof (extract_items_touches base (page_url base p) cards 0 w2) as Hg;
      destruct (extract_items_ok http (catalog_slug url_path base)
                  (catalog_folder url_path base) (page_url base p) cards 0 w2)
        as (w3 & H3 & _)
  end.
  rewrite H3 in H, Hg. apply IH in H.
  eapply touches_only_trans; [|eapply touches_only_trans; [exact Hg|]].
  - apply touches_only_trace.
  - eapply touches_only_trans; [|exact H]. apply touches_only_trace.
Qed.

(** The files of a catalog are not in the directory of a catalog with
    another slug. *)
Lemma other_catalog_outside base other name :
  catalog_slug url_path other ≠ catalog_slug url_path base →
  has_char "/" name = false →
  in_dir (catalog_dir url_path base) (catalog_dir url_path other +:+ name) = false.
Proof.
  intros Hne Hname. unfold in_dir, catalog_dir.
  pose proof (catalog_slug_no_slash url_path base) as Hb.
  pose proof (catalog_slug_no_slash url_path other) as Ho.
  destruct (catalog_slug url_path base) as [|cb sb] eqn:Hsb;
    destruct (catalog_slug url_path other) as [|co so] eqn:Hso; try done.
  - rewrite bool_decide_eq_true_2, bool_decide_eq_false_2 by done.
    rewrite sapp_nil_r, sapp_assoc, startswith_self, drop_length_app.
    rewrite !has_char_app. simpl. by rewrite orb_true_r.
  - rewrite bool_decide_eq_false_2, bool_decide_eq_true_2 by done.
    rewrite (sapp_nil_r "downloads/"). rewrite startswith_app.
    apply andb_false_intro1, not_true_is_false. intros [t' Ht]%startswith_split.
    rewrite Ht, sapp_assoc, !has_char_app in Hname. simpl in Hname.
    by rewrite orb_true_r in Hname.
  - rewrite !bool_decide_eq_false_2 by done. rewrite sapp_assoc, startswith_app.
    apply andb_false_intro1, not_true_is_false. intros [t' Ht]%startswith_split.
    rewrite !sapp_assoc in Ht. apply first_slash_inj in Ht; [|done..]. congruence.
Qed.

(** X15: the crawl of a catalog changes files only directly in the
    directory of that catalog under [downloads]: every other file is left
    as it is, and so is every file of a catalog with another slug. *)
Theorem catalog_crawl_stays_in_its_folder fuel base w r w' :
  scrape_media_items site http url_path fuel base w = Some (r, w') →
  (∀ path, in_dir (catalog_dir url_path base) path = false →
           fs w' !! path = fs w !! path)
  ∧ (∀ other name,
       catalog_slug url_path other ≠ catalog_slug url_path base →
       has_char "/" name = false →
       fs w' !! (catalog_dir url_path other +:+ name)
       = fs w !! (catalog_dir url_path other +:+ name)).
Proof.
  intros H. apply crawl_touches in H. split; [exact H|].
  intros other name Hne Hname. apply H. by apply other_catalog_outside.
Qed.

End Folder.

Lemma catalog_crawl_stays_in_its_folder_witness :
  match scrape_media_items Demo.site Demo.http_ok Demo.url_path 5 Demo.sermons
          (World {[metadata_path Demo.url_path Demo.events := "kept"]} []) with
  | Some (r, w') => fs w' !! (catalog_dir Demo.url_path Demo.events +:+ "metadata.txt")
                    = Some "kept"
  | None => False
  end.
Proof.
  destruct (scrape_media_items Demo.site Demo.http_ok Demo.url_path 5 Demo.sermons
              (World {[metadata_path Demo.url_path Demo.events := "kept"]} []))
    as [[r w']|] eqn:H.
  - rewrite (proj2 (catalog_crawl_stays_in_its_folder Demo.site Demo.http_ok
                      Demo.url_path 5 Demo.sermons _ r w' H) Demo.events "metadata.txt");
      [reflexivity | vm_compute; discriminate | reflexivity].
  - vm_compute in H. discriminate H.
Defined.


(** ** The destination path of an asset *)

Lemma length_sapp s t : String.length (s +:+ t) = String.length s + String.length t.
Proof. induction s as [|c s IH]; [done|]. rewrite sapp_cons. simpl. by rewrite IH. Qed.

Lemma rfind_absent d s : has_char d s = false → Py.rfind d s = None.
Proof.
  induction s as [|c s IH]; [done|]. simpl. intros [Hc Hs]%orb_false_elim.
  by rewrite (IH Hs), Hc.
Qed.

Lemma rfind_lt d s : ∀ i, Py.rfind d s = Some i → i < String.length s.
Proof.
  induction s as [|c s IH]; intros i; [done|]. simpl.
  destruct (Py.rfind d s) as [j|].
  - intros [= <-]. specialize (IH j eq_refl). lia.
  - destruct (Py.is_char d c); [|done]. intros [= <-]. lia.
Qed.

Lemma rfind_app_absent d s t :
  has_char d t = false → Py.rfind d (s +:+ t) = Py.rfind d s.
Proof.
  intros Ht. induction s as [|c s IH].
  - rewrite sapp_nil_l. by apply rfind_absent.
  - rewrite sapp_cons. simpl. by rewrite IH.
Qed.

Lemma rfind_app_last d s t :
  has_char d t = false → Py.rfind d (s +:+ String d t) = Some (String.length s).
Proof.
  intros Ht. induction s as [|c s IH].
  - rewrite sapp_nil_l. simpl. rewrite (rfind_absent d t Ht).
    unfold Py.is_char. by rewrite bool_decide_eq_true_2.
  - rewrite sapp_cons. simpl. by rewrite IH.
Qed.

Lemma all_dots_upto_app s t :
  Py.all_dots_upto (String.length s) (s +:+ t) = all_chars is_dot s.
Proof.
  induction s as [|c s IH]; [done|]. rewrite sapp_cons. simpl. by rewrite IH.
Qed.

(** The last path component starts after the directory part. *)
Lemma base_start_app dir rest :
  dir = "" ∨ (∃ d, dir = d +:+ "/") →
  has_char "/" rest = false →
  match Py.rfind "/" (dir +:+ rest) with Some i => S i | None => 0 end
  = String.length dir.
Proof.
  intros Hdir Hrest. rewrite rfind_app_absent by done.
  destruct Hdir as [->|[d ->]]; [done|].
  change (d +:+ "/") with (d +:+ String "/" "").
  rewrite rfind_app_last by done. rewrite length_sapp. simpl. lia.
Qed.

(** [splitext] on a path whose last component is [stem.e]. *)
Lemma splitext_ext_of_name dir stem e :
  dir = "" ∨ (∃ d, dir = d +:+ "/") →
  has_char "/" stem = false → has_char "/" e = false → has_char "." e = false →
  Py.splitext_ext (dir +:+ stem +:+ "." +:+ e)
  = if all_chars is_dot stem then "" else "." +:+ e.
Proof.
  intros Hdir Hstem He Hdot. unfold Py.splitext_ext.
  rewrite base_start_app; [|done|].
  2:{ rewrite has_char_app, Hstem. change ("." +:+ e) with (String "." e).
      simpl. by rewrite He. }
  change ("." +:+ e) with (String "." e).
  rewrite <- (sapp_assoc dir stem (String "." e)).
  rewrite rfind_app_last by done.
  rewrite (sapp_assoc dir stem (String "." e)), drop_length_app.
  rewrite length_sapp.
  replace (String.length dir + String.length stem - String.length dir)
    with (String.length stem) by lia.
  rewrite all_dots_upto_app.
  replace (String.length dir <=? String.length dir + String.length stem) with true
    by (symmetry; apply Nat.leb_le; lia).
  destruct (all_chars is_dot stem); [done|]. simpl.
  rewrite <- (sapp_assoc dir stem (String "." e)), <- length_sapp.
  apply drop_length_app.
Qed.

(** [splitext] on a path whose last component has no dot. *)
Lemma splitext_ext_no_dot dir name :
  dir = "" ∨ (∃ d, dir = d +:+ "/") →
  has_char "/" name = false → has_char "." name = false →
  Py.splitext_ext (dir +:+ name) = "".
Proof.
  intros Hdir Hname Hdot. unfold Py.splitext_ext.
  rewrite base_start_app by done. rewrite (rfind_app_absent "." dir name Hdot).
  destruct (Py.rfind "." dir) as [dot|] eqn:Hfind; [|done].
  apply rfind_lt in Hfind.
  replace (String.length dir <=? dot) with false; [done|].
  symmetry. apply Nat.leb_gt. lia.
Qed.

Section Destination.

Context (http : string → http_result) (url_path : string → string).

(** The path of an asset, written out. *)
Lemma asset_path_text base idx p :
  let slug := catalog_slug url_path base in
  asset_path url_path base idx p
  = "downloads/" +:+ (if bool_decide (slug = "") then "" else slug +:+ "/") +:+
    slug +:+ "_" +:+ get_date_slug (default "" (date_el p)) +:+
    "_" +:+ sanitize_filename (default "unknown-series" (series_el p)) +:+
    "_" +:+ sanitize_filename (default "unknown-speaker" (speaker_el p)) +:+
    "_" +:+ sanitize_filename (default ("untitled-" +:+ Py.str_nat (idx + 1)) (title_el p)) +:+
    Py.splitext_ext (src p).
Proof.
  intros slug. unfold asset_path.
  rewrite path_join_catalog_dir by apply player_filename_no_slash.
  unfold catalog_dir. fold slug. by rewrite sapp_assoc.
Qed.

(** The run of the extractor that downloads. *)
Lemma extract_item_downloads base url idx c p body w :
  activate c = Reveals p →
  http (src p) = Response 200 body →
  fs w !! asset_path url_path base idx p = None →
  extract_item http (catalog_slug url_path base) (catalog_folder url_path base) url idx c w
  = (Ok tt,
     World (<[metadata_path url_path base :=
                default "" (fs w !! metadata_path url_path base)
                +:+ metadata_block (player_filename (catalog_slug url_path base) idx p) idx p]>
              (<[asset_path url_path base idx p := body]> (fs w)))
           (trace w ++ [Activate url idx; HttpGet (src p);
                        Print ("⬇️  Downloaded: " +:+ asset_path url_path base idx p)])).
Proof.
  intros Hc Hhttp Hfree.
  pose proof (asset_path_ne_metadata url_path base idx p) as Hne.
  unfold extract_item, try_except, extract_body, mbind, M_bind, path_exists.
  unfold emit at 1. simpl. rewrite Hc. simpl.
  change (Py.path_join (catalog_folder url_path base)
            (player_filename (catalog_slug url_path base) idx p))
    with (asset_path url_path base idx p).
  change (Py.path_join (catalog_folder url_path base) "metadata.txt")
    with (metadata_path url_path base).
  rewrite Hfree. rewrite bool_decide_eq_false_2 by by intros [? ?].
  unfold download_mp3, mbind, M_bind, print, emit, write_file. simpl.
  rewrite Hhttp. simpl. rewrite lookup_insert_ne by done.
  by rewrite <- !app_assoc.
Qed.

(** C6: the destination of an asset.  The file a download creates is at
    [downloads/], the slug of the catalog as a directory, and the name
    made of the slug, the normalized date, the sanitized series, speaker
    and title, joined by underscores, followed by the extension of the
    asset URL; the download creates no other file but the log.  The
    extension is the text of the asset URL from the last dot of its last
    path component on, dot included and nothing changed; it is empty when
    that component has no dot or only leading dots before it.  So two
    items with equal components have the same path: the second one of a
    catalog finds the file of the first and is not fetched. *)
Theorem asset_path_is_function_of_components :
  (∀ base url idx c p body w,
     let slug := catalog_slug url_path base in
     let filename :=
       slug +:+ "_" +:+ get_date_slug (default "" (date_el p)) +:+
       "_" +:+ sanitize_filename (default "unknown-series" (series_el p)) +:+
       "_" +:+ sanitize_filename (default "unknown-speaker" (speaker_el p)) +:+
       "_" +:+ sanitize_filename
                 (default ("untitled-" +:+ Py.str_nat (idx + 1)) (title_el p)) +:+
       Py.splitext_ext (src p) in
     let filepath :=
       "downloads/" +:+ (if bool_decide (slug = "") then "" else slug +:+ "/") +:+ filename in
     activate c = Reveals p →
     http (src p) = Response 200 body →
     fs w !! filepath = None →
     ∃ w',
       extract_item http slug (catalog_folder url_path base) url idx c w = (Ok tt, w')
       ∧ fs w' !! filepath = Some body
       ∧ dom (fs w') = dom (fs w) ∪ {[filepath; metadata_path url_path base]}
       ∧ trace w' = trace w ++ [Activate url idx; HttpGet (src p);
                                Print ("⬇️  Downloaded: " +:+ filepath)])
  ∧ (∀ dir stem e,
       dir = "" ∨ (∃ d, dir = d +:+ "/") →
       has_char "/" stem = false → all_chars is_dot stem = false →
       has_char "/" e = false → has_char "." e = false →
       Py.splitext_ext (dir +:+ stem +:+ "." +:+ e) = "." +:+ e)
  ∧ (∀ dir name,
       dir = "" ∨ (∃ d, dir = d +:+ "/") →
       has_char "/" name = false →
       has_char "." name = false
       ∨ (∃ dots e, name = dots +:+ "." +:+ e ∧ all_chars is_dot dots = true
                    ∧ has_char "." e = false) →
       Py.splitext_ext (dir +:+ name) = "")
  ∧ (Py.splitext_ext "https://cdn.example.org/audio/2024/grace.mp3" = ".mp3"
     ∧ Py.splitext_ext "https://cdn.example.org/a.b/talk.final.M4A" = ".M4A"
     ∧ Py.splitext_ext "https://cdn.example.org/audio/grace.mp3?dl=1" = ".mp3?dl=1"
     ∧ Py.splitext_ext "https://cdn.example.org/audio/grace" = ""
     ∧ Py.splitext_ext "https://cdn.example.org/audio/.hidden" = "")
  ∧ (∀ base idx p base' idx' p',
       catalog_slug url_path base = catalog_slug url_path base' →
       get_date_slug (default "" (date_el p)) = get_date_slug (default "" (date_el p')) →
       sanitize_filename (default "unknown-series" (series_el p))
       = sanitize_filename (default "unknown-series" (series_el p')) →
       sanitize_filename (default "unknown-speaker" (speaker_el p))
       = sanitize_filename (default "unknown-speaker" (speaker_el p')) →
       sanitize_filename (default ("untitled-" +:+ Py.str_nat (idx + 1)) (title_el p))
       = sanitize_filename (default ("untitled-" +:+ Py.str_nat (idx' + 1)) (title_el p')) →
       Py.splitext_ext (src p) = Py.splitext_ext (src p') →
       asset_path url_path base idx p = asset_path url_path base' idx' p'
       ∧ ∀ url c body url' c' w,
           activate c = Reveals p → activate c' = Reveals p' →
           http (src p) = Response 200 body →
           fs w !! asset_path url_path base idx p = None →
           ∃ w1 w2,
             extract_item http (catalog_slug url_path base) (catalog_folder url_path base)
               url idx c w = (Ok tt, w1)
             ∧ extract_item http (catalog_slug url_path base') (catalog_folder url_path base')
                 url' idx' c' w1 = (Ok tt, w2)
             ∧ fs w2 !! asset_path url_path base' idx' p' = Some body
             ∧ http_gets (trace w2) = http_gets (trace w) ++ [src p]).
Proof.
  split; [|split; [|split; [|split]]].
  - intros base url idx c p body w slug filename filepath Hc Hhttp Hfree.
    pose proof (asset_path_text base idx p) as Hpath. simpl in Hpath.
    fold slug in Hpath. change (asset_path url_path base idx p = filepath) in Hpath.
    pose proof (asset_path_ne_metadata url_path base idx p) as Hne.
    rewrite <- Hpath in *.
    eexists. split; [by apply extract_item_downloads|]. simpl.
    split; [by rewrite lookup_insert_ne, lookup_insert_eq by done|].
    split; [|done].
    rewrite !dom_insert_L. apply set_eq. intros x.
    rewrite !elem_of_union, !elem_of_singleton. tauto.
  - intros dir stem e Hdir Hstem Hdots He Hdot.
    by rewrite splitext_ext_of_name, Hdots.
  - intros dir name Hdir Hname [Hdot|(dots & e & -> & Hdots & Hdot)].
    + by apply splitext_ext_no_dot.
    + rewrite has_char_app in Hname. apply orb_false_elim in Hname as [Hd He].
      simpl in He. rewrite splitext_ext_of_name, Hdots; done.
  - by vm_compute.
  - intros base idx p base' idx' p' Hslug Hdate Hseries Hspeaker Hname Hext.
    assert (asset_path url_path base idx p = asset_path url_path base' idx' p') as Hsame.
    { unfold asset_path, catalog_folder, player_filename, item_title, item_date,
        item_speaker, item_series.
      by rewrite Hslug, Hdate, Hseries, Hspeaker, Hname, Hext. }
    split; [done|].
    intros url c body url' c' w Hc Hc' Hhttp Hfree.
    pose proof (asset_path_ne_metadata url_path base idx p) as Hne.
    eexists _, _. split; [by apply extract_item_downloads|].
    split.
    + apply (extract_item_skips http url_path base' url' idx' c' p' body); [done|].
      simpl. by rewrite <- Hsame, lookup_insert_ne, lookup_insert_eq by done.
    + simpl. rewrite <- Hsame.
      assert (asset_path url_path base idx p ≠ metadata_path url_path base') as Hne'.
      { rewrite Hsame. apply asset_path_ne_metadata. }
      rewrite lookup_insert_ne by done.
      rewrite lookup_insert_ne, lookup_insert_eq by done.
      split; [done|].
      unfold http_gets. by rewrite <- !app_assoc, !omap_app, app_nil_r.
Qed.

End Destination.

Lemma asset_path_is_function_of_components_witness :
  (∃ w',
     extract_item Demo.http_ok (catalog_slug Demo.url_path Demo.sermons)
       (catalog_folder Demo.url_path Demo.sermons) Demo.sermons 0 Demo.card_a Demo.w0
     = (Ok tt, w')
     ∧ fs w' !! "downloads/sermons/sermons_2024-03-03_unknown-series_john-doe_grace.mp3"
       = Some "ID3")
  ∧ Py.splitext_ext ("https://cdn.example.org/audio/2024/" +:+ "grace" +:+ "." +:+ "mp3")
    = ".mp3"
  ∧ Py.splitext_ext ("https://cdn.example.org/audio/2024/" +:+ "grace") = ""
  ∧ asset_path Demo.url_path Demo.sermons 0 (Demo.talk "Grace")
    = asset_path Demo.url_path "https://providencebiblefellowship.com/old/sermons/" 4
        (Player "https://cdn.example.org/other/take2.mp3" (Some "GRACE!")
           (Some "  March 03, 2024") (Some "john doe") None).
Proof.
  destruct (asset_path_is_function_of_components Demo.http_ok Demo.url_path)
    as (Hfile & Hext & Hnone & _ & Hsame).
  split; [|split; [|split]].
  - destruct (Hfile Demo.sermons Demo.sermons 0 Demo.card_a (Demo.talk "Grace") "ID3"
                Demo.w0 eq_refl eq_refl eq_refl) as (w' & Hrun & Hfs & _).
    exists w'. split; [exact Hrun|exact Hfs].
  - apply Hext; [right; by exists "https://cdn.example.org/audio/2024"|
                 reflexivity..].
  - apply Hnone; [right; by exists "https://cdn.example.org/audio/2024"|
                  reflexivity|left; reflexivity].
  - apply Hsame; reflexivity.
Defined.
